(** * rmassets: removal of unreferenced files from a Markdown document's
      [.assets] folder

    A shallow embedding of [src/rmassets.py] and the properties of its
    three components (file discovery, reference extractor, asset
    reconciler).

    Modelling conventions.
    - A Python [str] is a [list ascii]; a character is a code point in the
      range 0..255, and the character classes ([str.isspace], [\w],
      [str.lower]) are Python's on that range.
    - [os.path] is the POSIX flavour ([posixpath]); the Windows [basename]
      is given next to it because the extractor's result depends on it.
    - The file system is a finite map from path strings to nodes.  A path
      names a node by its exact spelling (no [.], [..] or symbolic-link
      resolution); a directory's listing is read off the keys, in the
      order of the map.  Listing a directory fails when the directory is
      marked as sealed (no read permission), removing a file fails when
      the file is marked as locked.
    - The operator is the list of lines still to come on standard input;
      [input] at the end of that list raises [EOFError].  Interrupts from
      outside the program ([KeyboardInterrupt]) are not part of the model.
    - Effects (file system, operator input, console and system-call log)
      are threaded through a state-and-exception monad.
    - [main] starts after [parse_args]; the exit status of the process
      is [main]'s result, or 1 when an exception leaves [main]. *)

From Stdlib Require Import Ascii String ZArith Lia.
From stdpp Require Import gmap strings list sorting.

Abbreviation str := (list ascii).
Coercion list_ascii_of_string : string >-> list.

(** ** Python string methods *)

Module Str.

Definition code (c : ascii) : N := N_of_ascii c.

Definition in_range (lo hi : N) (c : ascii) : bool :=
  ((lo <=? code c) && (code c <=? hi))%N.

(** [str.isspace] on one character: TAB..CR, FS..US, space, NEL, NBSP. *)
Definition is_space (c : ascii) : bool :=
  in_range 9 13 c || in_range 28 32 c
  || (code c =? 133)%N || (code c =? 160)%N.

(** Characters matched by [\w]: alphanumerics and the underscore. *)
Definition is_word (c : ascii) : bool :=
  in_range 48 57 c || in_range 65 90 c || (code c =? 95)%N
  || in_range 97 122 c
  || (code c =? 170)%N || in_range 178 179 c || (code c =? 181)%N
  || in_range 185 186 c || in_range 188 190 c
  || in_range 192 214 c || in_range 216 246 c || in_range 248 255 c.

Definition is_upper (c : ascii) : bool :=
  in_range 65 90 c || (in_range 192 222 c && negb (code c =? 215)%N).

Definition lower_char (c : ascii) : ascii :=
  if is_upper c then ascii_of_N (code c + 32) else c.

(** [s.lower()] *)
Definition lower (s : str) : str := lower_char <$> s.

(** [s.startswith(pre)] *)
Fixpoint startswith (s pre : str) : bool :=
  match pre, s with
  | [], _ => true
  | c :: pre', d :: s' => Ascii.eqb c d && startswith s' pre'
  | _ :: _, [] => false
  end.

(** [s.endswith(suf)] *)
Definition endswith (s suf : str) : bool :=
  startswith (reverse s) (reverse suf).

(** [s.lstrip()], [s.rstrip()], [s.strip()] *)
Fixpoint lstrip (s : str) : str :=
  match s with
  | c :: s' => if is_space c then lstrip s' else s
  | [] => []
  end.

Definition rstrip (s : str) : str := reverse (lstrip (reverse s)).

Definition strip (s : str) : str := rstrip (lstrip s).

Definition flush (cur : option str) : list str :=
  match cur with Some w => [reverse w] | None => [] end.

Fixpoint split_go (cur : option str) (s : str) : list str :=
  match s with
  | [] => flush cur
  | c :: s' =>
      if is_space c then flush cur ++ split_go None s'
      else split_go (Some (c :: default [] cur)) s'
  end.

(** [s.split()]: the maximal runs of non-whitespace characters. *)
Definition split (s : str) : list str := split_go None s.

(** [s.count(c)] for a one-character [c]. *)
Definition count (c : ascii) (s : str) : nat :=
  length (filter (λ d, d = c) s).

(** [c in s] for a one-character [c]. *)
Definition contains (c : ascii) (s : str) : bool := bool_decide (c ∈ s).

Fixpoint rfind_go (c : ascii) (s : str) (i last : Z) : Z :=
  match s with
  | [] => last
  | d :: s' => rfind_go c s' (i + 1) (if decide (d = c) then i else last)
  end.

(** [s.rfind(c)]: the index of the last occurrence of [c], or -1. *)
Definition rfind (c : ascii) (s : str) : Z := rfind_go c s 0 (-1).

(** [s[i:]] and [s[:i]] for [0 <= i]. *)
Definition from (i : Z) (s : str) : str := drop (Z.to_nat i) s.
Definition upto (i : Z) (s : str) : str := take (Z.to_nat i) s.

(** [s[1:-1]] *)
Definition inner (s : str) : str := removelast (tail s).

(** The order of [sorted] on strings: lexicographic on code points. *)
Fixpoint leb (s t : str) : bool :=
  match s, t with
  | [], _ => true
  | _ :: _, [] => false
  | c :: s', d :: t' =>
      if (code c <? code d)%N then true
      else if (code d <? code c)%N then false
      else leb s' t'
  end.

Definition le (s t : str) : Prop := leb s t = true.

#[global] Instance le_dec : RelDecision le.
Proof. intros s t. unfold le. apply _. Defined.

(** [sorted(l)] for a list or set of strings. *)
Definition sorted (l : list str) : list str := merge_sort le l.

End Str.

(** ** Regular expressions: the fragment of [re] that the four patterns use

    Every pattern of [extract_image_paths] is a sequence of one-character
    atoms, each taken once or under a greedy [*] or [+], with one
    capturing group and at most a leading [^].  The matcher is the
    backtracking one of [re]: a greedy repetition takes as many characters
    as it can and gives them back one at a time when the rest of the
    pattern fails. *)

Module Re.

Inductive item :=
  | One (p : ascii → bool)      (* a literal or a class, once *)
  | Star (p : ascii → bool)     (* [X*] *)
  | Plus (p : ascii → bool)     (* [X+] *)
  | Bol                         (* [^] under [re.MULTILINE] *)
  | Open                        (* [(] of group 1 *)
  | Close.                      (* [)] of group 1 *)

(** A match in progress: characters consumed so far and the span of
    group 1, both counted from the start of the match. *)
Record pos := { consumed : nat; g_start : nat; g_end : nat }.

Definition cont := option ascii → str → pos → option pos.

Definition step (q : pos) : pos :=
  {| consumed := S (consumed q); g_start := g_start q; g_end := g_end q |}.

(** Greedy repetition of a class, then the continuation [k]. *)
Fixpoint star (p : ascii → bool) (k : cont)
    (prev : option ascii) (s : str) (q : pos) : option pos :=
  match s with
  | c :: s' =>
      if p c then
        match star p k (Some c) s' (step q) with
        | Some r => Some r
        | None => k prev s q
        end
      else k prev s q
  | [] => k prev s q
  end.

(** [^] with [re.MULTILINE]: at the start of the text or after a newline. *)
Definition at_bol (prev : option ascii) : bool :=
  match prev with
  | None => true
  | Some c => Ascii.eqb c "010"%char
  end.

(** [prev] is the character before the current position, if any. *)
Fixpoint match_items (re : list item) : cont :=
  match re with
  | [] => λ _ _ q, Some q
  | One p :: re' => λ _ s q,
      match s with
      | c :: s' => if p c then match_items re' (Some c) s' (step q) else None
      | [] => None
      end
  | Star p :: re' => star p (match_items re')
  | Plus p :: re' => λ _ s q,
      match s with
      | c :: s' =>
          if p c then star p (match_items re') (Some c) s' (step q) else None
      | [] => None
      end
  | Bol :: re' => λ prev s q,
      if at_bol prev then match_items re' prev s q else None
  | Open :: re' => λ prev s q,
      match_items re' prev s
        {| consumed := consumed q; g_start := consumed q; g_end := g_end q |}
  | Close :: re' => λ prev s q,
      match_items re' prev s
        {| consumed := consumed q; g_start := g_start q; g_end := consumed q |}
  end.

(** [pattern.match] at one position: the end of the match and group 1. *)
Definition match_at (re : list item) (prev : option ascii) (s : str)
    : option (nat * str) :=
  match match_items re prev s {| consumed := 0; g_start := 0; g_end := 0 |} with
  | Some q =>
      Some (consumed q, take (g_end q - g_start q) (drop (g_start q) s))
  | None => None
  end.

(** [pattern.finditer]: leftmost matches, scanning on from the end of
    each one.  [skip] counts the characters of the last match still to
    step over. *)
Fixpoint finditer_go (re : list item) (prev : option ascii) (s : str)
    (skip : nat) : list str :=
  match skip, s with
  | S k, c :: s' => finditer_go re (Some c) s' k
  | S _, [] => []
  | 0, _ =>
      match match_at re prev s, s with
      | Some (n, g), c :: s' => g :: finditer_go re (Some c) s' (n - 1)
      | Some (_, g), [] => [g]
      | None, c :: s' => finditer_go re (Some c) s' 0
      | None, [] => []
      end
  end.

(** The list of [m.group(1)] for [m] in [pattern.finditer(text)]. *)
Definition finditer (re : list item) (text : str) : list str :=
  finditer_go re None text 0.

(** Atoms. *)
Definition lit (c : ascii) : item := One (Ascii.eqb c).
Definition ilit (c : ascii) : item :=
  One (λ d, Ascii.eqb (Str.lower_char d) c).        (* [re.IGNORECASE] *)
Definition only (c : ascii) : ascii → bool := Ascii.eqb c.
Definition any_of (cs : str) : ascii → bool := λ d, existsb (Ascii.eqb d) cs.
Definition none_of (cs : str) : ascii → bool := λ d, negb (any_of cs d).
Definition lits (cs : str) : list item := lit <$> cs.
Definition ilits (cs : str) : list item := ilit <$> cs.

End Re.

(** ** [os.path] *)

Module Path.

Definition sep : ascii := "/"%char.
Definition extsep : ascii := "."%char.

(** [posixpath.basename]: what follows the last [/]. *)
Definition posix_basename (p : str) : str :=
  let i := (Str.rfind sep p + 1)%Z in
  Str.from i p.

(** [ntpath]: both [\] and [/] separate components. *)
Definition nt_is_sep (c : ascii) : bool := Re.any_of "\/" c.

Definition nt_norm (p : str) : str :=
  (λ c, if Ascii.eqb c "/"%char then "\"%char else c) <$> p.

Definition upper_char (c : ascii) : ascii :=
  if Str.in_range 97 122 c then ascii_of_N (Str.code c - 32) else c.

(** [s.find(c, start)] as an option. *)
Fixpoint find_from (c : ascii) (s : str) (i start : nat) : option nat :=
  match s with
  | [] => None
  | d :: s' =>
      if (start <=? i) && Ascii.eqb d c then Some i
      else find_from c s' (S i) start
  end.

(** [ntpath.splitdrive(p)[1]]: the path without its drive or UNC share.
    The prefix test upper-cases ASCII letters, which is all that a
    comparison with the UNC prefix can see. *)
Definition nt_drop_drive (p : str) : str :=
  if 2 <=? length p then
    let normp := nt_norm p in
    if bool_decide (take 2 normp = "\\") then
      let start :=
        if bool_decide (fmap (M:=list) upper_char (take 8 normp) = "\\?\UNC\")
        then 8 else 2 in
      match find_from "\"%char normp 0 start with
      | None => []
      | Some index =>
          match find_from "\"%char normp 0 (index + 1) with
          | None => []
          | Some index2 => drop index2 p
          end
      end
    else if bool_decide (take 1 (drop 1 normp) = ":") then drop 2 p
    else p
  else p.

(** The loop of [ntpath.split]: step back from the end while the
    character is not a separator. *)
Fixpoint nt_tail_go (r acc : str) : str :=
  match r with
  | c :: r' => if nt_is_sep c then acc else nt_tail_go r' (c :: acc)
  | [] => acc
  end.

(** [ntpath.basename] *)
Definition nt_basename (p : str) : str :=
  nt_tail_go (reverse (nt_drop_drive p)) [].

Inductive flavour := Posix | Nt.

Definition basename (fl : flavour) (p : str) : str :=
  match fl with
  | Posix => posix_basename p
  | Nt => nt_basename p
  end.

(** [posixpath.join(a, b)] *)
Definition join (a b : str) : str :=
  if Str.startswith b [sep] then b
  else if bool_decide (a = []) || Str.endswith a [sep] then a ++ b
  else a ++ [sep] ++ b.

(** The loop of [genericpath._splitext] over the characters between the
    last separator and the last dot: is one of them not a dot? *)
Fixpoint has_non_dot (name : str) : bool :=
  match name with
  | c :: name' => if negb (Ascii.eqb c extsep) then true else has_non_dot name'
  | [] => false
  end.

(** [posixpath.splitext]: the extension starts at the last dot of the
    last component, leading dots of that component apart. *)
Definition splitext (p : str) : str * str :=
  let sepIndex := Str.rfind sep p in
  let dotIndex := Str.rfind extsep p in
  if (sepIndex <? dotIndex)%Z
     && has_non_dot (Str.upto (dotIndex - (sepIndex + 1)) (Str.from (sepIndex + 1) p))
  then (Str.upto dotIndex p, Str.from dotIndex p)
  else (p, []).

End Path.

(** ** Reference extractor *)

Definition dquote : ascii := "034"%char.
Definition quotes : str := [dquote; "'"%char].

(** Line 54, the Markdown image  !\[[^\]]*\]\(([^)]+)\)  : an exclamation
    mark, the alternative text in square brackets, the target in round
    brackets (group 1). *)
Definition md_image_re : list Re.item :=
  [Re.lit "!"; Re.lit "["; Re.Star (Re.none_of ["]"]); Re.lit "]"; Re.lit "(";
   Re.Open; Re.Plus (Re.none_of [")"]); Re.Close; Re.lit ")"]%char.

(** Line 65, the HTML image tag  <img[^>]+src=Q([^Q]+)Q  where Q is the
    class of the two quote characters, under [re.IGNORECASE]: the tag
    name, at least one character other than the closing bracket, the
    [src=] attribute and its quoted value (group 1). *)
Definition html_img_re : list Re.item :=
  Re.ilits "<img" ++ [Re.Plus (Re.none_of ">")] ++ Re.ilits "src="
  ++ [Re.One (Re.any_of quotes); Re.Open; Re.Plus (Re.none_of quotes);
      Re.Close; Re.One (Re.any_of quotes)].

(** Line 70, the reference-style definition  ^\s*\[[^\]]+\]:\s*(\S+)  under
    [re.MULTILINE]: at the start of a line, optional white space, the
    identifier in square brackets, a colon, optional white space and the
    target up to the next white space (group 1). *)
Definition ref_def_re : list Re.item :=
  [Re.Bol; Re.Star Str.is_space; Re.lit "["; Re.Plus (Re.none_of ["]"]);
   Re.lit "]"; Re.lit ":"; Re.Star Str.is_space;
   Re.Open; Re.Plus (λ c, negb (Str.is_space c)); Re.Close]%char.

(** Line 75, the asset-folder path  [\w\-./\\]+\.assets[/\\]([\w.\- %()+,]+)\)  :
    a path through a folder whose name ends in [.assets], up to a closing
    round bracket; the file name after the folder is group 1. *)
Definition asset_like_re : list Re.item :=
  [Re.Plus (λ c, Str.is_word c || Re.any_of "-./\" c)]
  ++ Re.lits ".assets"
  ++ [Re.One (Re.any_of "/\"); Re.Open;
      Re.Plus (λ c, Str.is_word c || Re.any_of ".- %()+," c);
      Re.Close; Re.lit ")"%char].

(** The treatment of group 1 of a Markdown image: strip, drop surrounding
    angle brackets (lines 56-59), cut an unquoted title (lines 60-61). *)
Definition md_unwrap (group1 : str) : str :=
  let raw := Str.strip group1 in
  if Str.startswith raw "<" && Str.endswith raw ">"
  then Str.strip (Str.inner raw) else raw.

Definition md_target (group1 : str) : str :=
  let raw := md_unwrap group1 in
  if Str.contains " " raw
     && ((Str.count dquote raw <? 2) && (Str.count "'" raw <? 2))
  then default [] (head (Str.split raw))
  else raw.

(** [for m in pattern.finditer(markdown): refs.add(basename(f(m.group(1))))] *)
Definition add_all (fl : Path.flavour) (f : str → str) (re : list Re.item)
    (markdown : str) (refs : gset str) : gset str :=
  foldl (λ refs g, refs ∪ {[ Path.basename fl (f g) ]}) refs
        (Re.finditer re markdown).

Definition extract_image_paths (fl : Path.flavour) (markdown : str) : gset str :=
  let refs : gset str := ∅ in
  let refs := add_all fl md_target md_image_re markdown refs in
  let refs := add_all fl Str.strip html_img_re markdown refs in
  let refs := add_all fl Str.strip ref_def_re markdown refs in
  let refs := add_all fl id asset_like_re markdown refs in
  refs ∖ {[ [] ]}.

(** ** The world: file system, operator, console *)

Inductive node :=
  | File (content : option str) (locked : bool)
      (* a regular file: its text ([None] when it is not valid UTF-8) and
         whether removing it is refused *)
  | Dir (sealed : bool).
      (* a directory, and whether listing it is refused *)

(** The exceptions that the modelled calls raise; in Python all of them
    are subclasses of [Exception]. *)
Inductive exn :=
  | FileNotFoundError (p : str)
  | IsADirectoryError (p : str)
  | NotADirectoryError (p : str)
  | PermissionError (p : str)
  | UnicodeDecodeError (p : str)
  | EOFError.

(** The lines the program prints, by format string. *)
Inductive message :=
  | MsgIgnoring (p : str)
  | MsgNoAssetDir (md_path asset_dir : str)
  | MsgNoFiles (asset_dir : str)
  | MsgNoUnused (asset_dir : str)
  | MsgAssetDir (asset_dir : str)
  | MsgReferenced (n : nat) (names : list str)
  | MsgUnused (n : nat)
  | MsgUnusedFile (f : str)
  | MsgDryRun
  | MsgAborted
  | MsgDeleted (fp : str)
  | MsgFailed (fp : str) (e : exn)
  | MsgError (md : str) (e : exn)
  | MsgNoMarkdown
  | MsgFinished (total_deleted : nat).

Inductive event :=
  | EvPrint (m : message)
  | EvRead (path : str)                      (* [open(path).read()] *)
  | EvInput (response : option str)          (* [input(prompt)] *)
  | EvRemove (path : str) (ok : bool).       (* [os.remove(path)] *)

Record world := World {
  fs : gmap str node;
  stdin : list str;          (* the operator's coming responses, one a line *)
  trace : list event         (* what has happened so far, oldest first *)
}.

Definition log (e : event) (w : world) : world :=
  World (fs w) (stdin w) (trace w ++ [e]).

(** ** A state-and-exception monad *)

Definition M (A : Type) : Type := world → world * (exn + A).

#[global] Instance M_ret : MRet M := λ A a w, (w, inr a).
#[global] Instance M_bind : MBind M := λ A B f m w,
  match m w with
  | (w', inr a) => f a w'
  | (w', inl e) => (w', inl e)
  end.

Definition raise {A} (e : exn) : M A := λ w, (w, inl e).

(** [try: body  except Exception as e: handler(e)] *)
Definition try_except {A} (body : M A) (handler : exn → M A) : M A := λ w,
  match body w with
  | (w', inr a) => (w', inr a)
  | (w', inl e) => handler e w'
  end.

Definition gets {A} (f : world → A) : M A := λ w, (w, inr (f w)).

(** [for x in l: body(x)] *)
Fixpoint for_each {A} (l : list A) (body : A → M unit) : M unit :=
  match l with
  | [] => mret ()
  | x :: l' => body x ;; for_each l' body
  end.

(** [[x for x in l if p(x)]] *)
Fixpoint filter_m {A} (p : A → M bool) (l : list A) : M (list A) :=
  match l with
  | [] => mret []
  | x :: l' =>
      b ← p x;
      r ← filter_m p l';
      mret (if b : bool then x :: r else r)
  end.

(** ** System calls *)

Definition isdir (t : gmap str node) (p : str) : bool :=
  match t !! p with Some (Dir _) => true | _ => false end.

Definition isfile (t : gmap str node) (p : str) : bool :=
  match t !! p with Some (File _ _) => true | _ => false end.

(** The keys below a directory [d] are [d], a separator, and a name. *)
Definition dir_prefix (d : str) : str :=
  if Str.endswith d [Path.sep] then d else d ++ [Path.sep].

Definition child_name (d k : str) : option str :=
  let n := drop (length (dir_prefix d)) k in
  if Str.startswith k (dir_prefix d)
     && bool_decide (n ≠ []) && negb (Str.contains Path.sep n)
  then Some n else None.

Definition entries (t : gmap str node) (d : str) : list str :=
  omap (child_name d) (map_to_list t).*1.

Definition os_path_isdir (p : str) : M bool := gets (λ w, isdir (fs w) p).
Definition os_path_isfile (p : str) : M bool := gets (λ w, isfile (fs w) p).

Definition os_listdir (p : str) : M (list str) := λ w,
  match fs w !! p with
  | Some (Dir false) => (w, inr (entries (fs w) p))
  | Some (Dir true) => (w, inl (PermissionError p))
  | Some (File _ _) => (w, inl (NotADirectoryError p))
  | None => (w, inl (FileNotFoundError p))
  end.

Definition os_remove (p : str) : M unit := λ w,
  match fs w !! p with
  | Some (File _ false) =>
      (World (delete p (fs w)) (stdin w) (trace w ++ [EvRemove p true]), inr ())
  | Some (File _ true) => (log (EvRemove p false) w, inl (PermissionError p))
  | Some (Dir _) => (log (EvRemove p false) w, inl (IsADirectoryError p))
  | None => (log (EvRemove p false) w, inl (FileNotFoundError p))
  end.

Definition print (m : message) : M unit := λ w, (log (EvPrint m) w, inr ()).

(** [input(prompt)]: the next line of the operator, or [EOFError]. *)
Definition input : M str := λ w,
  match stdin w with
  | ans :: rest => (World (fs w) rest (trace w ++ [EvInput (Some ans)]), inr ans)
  | [] => (log (EvInput None) w, inl EOFError)
  end.

(** ** File discovery *)

Definition is_md (name : str) : bool := Str.endswith (Str.lower name) ".md".

Fixpoint find_markdown_files_loop (paths : list str) (results : list str)
    : M (list str) :=
  match paths with
  | [] => mret results
  | p :: paths' =>
      d ← os_path_isdir p;
      if d : bool then
        names ← os_listdir p;
        find_markdown_files_loop paths'
          (foldl (λ results name,
                    if is_md name then results ++ [Path.join p name]
                    else results)
                 results names)
      else
        f ← os_path_isfile p;
        if f && is_md p then find_markdown_files_loop paths' (results ++ [p])
        else (print (MsgIgnoring p) ;; find_markdown_files_loop paths' results)
  end.

Definition find_markdown_files (paths : list str) : M (list str) :=
  results ← find_markdown_files_loop paths [];
  mret (Str.sorted results).

(** ** Asset reconciler *)

Definition read_text (path : str) : M str := λ w,
  let w' := log (EvRead path) w in
  match fs w !! path with
  | Some (File (Some text) _) => (w', inr text)
  | Some (File None _) => (w', inl (UnicodeDecodeError path))
  | Some (Dir _) => (w', inl (IsADirectoryError path))
  | None => (w', inl (FileNotFoundError path))
  end.

Definition asset_dir_of (md_path : str) : str :=
  let '(base, _) := Path.splitext md_path in
  base ++ ".assets".

Definition unused_of (referenced : gset str) (all_files : list str) : list str :=
  filter (λ f, f ∉ referenced) all_files.

(** The deletion loop, lines 122-132. *)
Fixpoint delete_loop (asset_dir : str) (unused : list str) (deleted : nat)
    : M nat :=
  match unused with
  | [] => mret deleted
  | f :: unused' =>
      let fp := Path.join asset_dir f in
      deleted ← try_except
        (os_remove fp ;; print (MsgDeleted fp) ;; mret (deleted + 1))
        (λ e, print (MsgFailed fp e) ;; mret deleted);
      delete_loop asset_dir unused' deleted
  end.

(** Lines 112-132: the mode branch and the deletion. *)
Definition delete_unused (asset_dir : str) (unused : list str)
    (dry_run assume_yes : bool) : M nat :=
  if dry_run then (print MsgDryRun ;; mret 0)
  else if negb assume_yes then
    ans ← input;
    let ans := Str.lower (Str.strip ans) in
    if bool_decide (ans ∉ [("y" : str); ("yes" : str)]) then
      (print MsgAborted ;; mret 0)
    else delete_loop asset_dir unused 0
  else delete_loop asset_dir unused 0.

(** Lines 106-110: what is printed before the mode branch. *)
Definition report (asset_dir : str) (referenced : gset str)
    (unused : list str) : M unit :=
  print (MsgAssetDir asset_dir) ;;
  print (MsgReferenced (size referenced) (Str.sorted (elements referenced))) ;;
  print (MsgUnused (length unused)) ;;
  for_each unused (λ f, print (MsgUnusedFile f)).

Definition process_markdown (md_path : str) (dry_run assume_yes : bool)
    : M nat :=
  text ← read_text md_path;
  let referenced := extract_image_paths Path.Posix text in
  let asset_dir := asset_dir_of md_path in
  d ← os_path_isdir asset_dir;
  if negb d then (print (MsgNoAssetDir md_path asset_dir) ;; mret 0)
  else
    names ← os_listdir asset_dir;
    all_files ← filter_m (λ f, os_path_isfile (Path.join asset_dir f)) names;
    if bool_decide (all_files = []) then
      (print (MsgNoFiles asset_dir) ;; mret 0)
    else
      let unused := unused_of referenced all_files in
      if bool_decide (unused = []) then
        (print (MsgNoUnused asset_dir) ;; mret 0)
      else
        report asset_dir referenced unused ;;
        delete_unused asset_dir unused dry_run assume_yes.

(** ** The run *)

Fixpoint main_loop (md_files : list str) (dry_run yes : bool)
    (total_deleted : nat) : M nat :=
  match md_files with
  | [] => mret total_deleted
  | md :: md_files' =>
      total_deleted ← try_except
        (deleted ← process_markdown md dry_run yes;
         mret (total_deleted + deleted))
        (λ e, print (MsgError md e) ;; mret total_deleted);
      main_loop md_files' dry_run yes total_deleted
  end.

(** [main] after [parse_args]: [paths] are the positional arguments,
    [dry_run] and [yes] the two flags.  The result is the exit code. *)
Definition main (paths : list str) (dry_run yes : bool) : M Z :=
  md_files ← find_markdown_files paths;
  if bool_decide (md_files = []) then (print MsgNoMarkdown ;; mret 1%Z)
  else
    total_deleted ← main_loop md_files dry_run yes 0;
    print (MsgFinished total_deleted) ;; mret 0%Z.


(** ** Observations used in the statements *)

(** [os.listdir(p)] succeeds: [p] is a directory that can be listed. *)
Definition listable (t : gmap str node) (p : str) : bool :=
  match t !! p with Some (Dir false) => true | _ => false end.

(** [os.listdir(p)] is refused although [os.path.isdir(p)] holds. *)
Definition unlistable (t : gmap str node) (p : str) : bool :=
  match t !! p with Some (Dir true) => true | _ => false end.

(** The first input on which discovery fails: a directory that cannot be
    listed (line 31 is outside every [try]). *)
Fixpoint refused (t : gmap str node) (paths : list str) : option str :=
  match paths with
  | [] => None
  | p :: paths' => if unlistable t p then Some p else refused t paths'
  end.

(** The inputs that discovery gets through: all of them, or those before
    the first directory that cannot be listed. *)
Fixpoint examined (t : gmap str node) (paths : list str) : list str :=
  match paths with
  | [] => []
  | p :: paths' => if unlistable t p then [] else p :: examined t paths'
  end.

(** What the four scans put into the set, before the empty string is
    discarded. *)
Definition scanned (fl : Path.flavour) (markdown x : str) : Prop :=
  (∃ g, g ∈ Re.finditer md_image_re markdown ∧ x = Path.basename fl (md_target g))
  ∨ (∃ g, g ∈ Re.finditer html_img_re markdown ∧ x = Path.basename fl (Str.strip g))
  ∨ (∃ g, g ∈ Re.finditer ref_def_re markdown ∧ x = Path.basename fl (Str.strip g))
  ∨ (∃ g, g ∈ Re.finditer asset_like_re markdown ∧ x = Path.basename fl g).

(** The regular files directly inside a directory: [all_files] of
    line 95 as a function of the file system. *)
Definition all_files_of (t : gmap str node) (asset_dir : str) : list str :=
  filter (λ f, isfile t (Path.join asset_dir f) = true) (entries t asset_dir).

(** The [os.remove] calls of a trace, with their outcome. *)
Definition removals (evs : list event) : list (str * bool) :=
  omap (λ e, match e with EvRemove p ok => Some (p, ok) | _ => None end) evs.

(** The [input] calls of a trace. *)
Definition prompts (evs : list event) : list (option str) :=
  omap (λ e, match e with EvInput r => Some r | _ => None end) evs.

(** The documents read in a trace. *)
Definition reads (evs : list event) : list str :=
  omap (λ e, match e with EvRead p => Some p | _ => None end) evs.

(** The lines of a trace. *)
Definition printed (evs : list event) : list message :=
  omap (λ e, match e with EvPrint m => Some m | _ => None end) evs.

(** The file names listed under the heading of unused files. *)
Definition unused_lines (evs : list event) : list str :=
  omap (λ m, match m with MsgUnusedFile f => Some f | _ => None end)
       (printed evs).

(** The operator's answer counts as a yes (lines 117-118). *)
Definition affirmative (ans : str) : Prop :=
  Str.lower (Str.strip ans) ∈ [("y" : str); ("yes" : str)].

(** [t'] is [t] with some regular files removed and nothing else changed. *)
Definition shrinks (t t' : gmap str node) : Prop :=
  ∀ p, t' !! p = t !! p
       ∨ (t' !! p = None ∧ ∃ c l, t !! p = Some (File c l)).

(** The text of a document, when it is a readable regular file. *)
Definition text_of (t : gmap str node) (md_path : str) : option str :=
  match t !! md_path with
  | Some (File (Some text) _) => Some text
  | _ => None
  end.

(** The world after some more events. *)
Definition logs (evs : list event) (w : world) : world :=
  World (fs w) (stdin w) (trace w ++ evs).

(** The events of lines 106-110. *)
Definition report_events (asset_dir : str) (referenced : gset str)
    (unused : list str) : list event :=
  [EvPrint (MsgAssetDir asset_dir);
   EvPrint (MsgReferenced (size referenced) (Str.sorted (elements referenced)));
   EvPrint (MsgUnused (length unused))]
  ++ (EvPrint ∘ MsgUnusedFile <$> unused).

(** The unused files of a document in a file system: [unused] of
    line 100 where [process_markdown] gets that far, nothing otherwise. *)
Definition unused_files (t : gmap str node) (md_path : str) : list str :=
  match text_of t md_path with
  | Some text =>
      if listable t (asset_dir_of md_path)
      then unused_of (extract_image_paths Path.Posix text)
                     (all_files_of t (asset_dir_of md_path))
      else []
  | None => []
  end.

(** The deletion of lines 122-132 is reached: not a dry run, and either
    [--yes] or an affirmative answer of the operator. *)
Definition confirmed (yes : bool) (w : world) : Prop :=
  yes = true ∨ ∃ ans rest, stdin w = ans :: rest ∧ affirmative ans.

(** The removals of a trace that succeeded. *)
Definition succeeded (evs : list event) : list (str * bool) :=
  filter (λ r, r.2 = true) (removals evs).

(** What discovery takes from one input path [p]: the entries of a
    directory that are named like Markdown files, or [p] itself when it
    is a regular file named like one. *)
Definition discovered_from (t : gmap str node) (p x : str) : Prop :=
  (isdir t p = true
   ∧ ∃ name, name ∈ entries t p ∧ is_md name = true ∧ x = Path.join p name)
  ∨ (isdir t p = false ∧ isfile t p = true ∧ is_md p = true ∧ x = p).

(** [t'] is [t] without some of the removable files that the removals
    [rs] name as removed, and is otherwise the same. *)
Definition removed_by (rs : list (str * bool)) (t t' : gmap str node) : Prop :=
  ∀ p, t' !! p = t !! p
       ∨ (t' !! p = None ∧ (∃ c, t !! p = Some (File c false))
          ∧ (p, true) ∈ rs).

(** What discovery appends for one input path [p] (lines 30-35). *)
Definition found_in (t : gmap str node) (p : str) : list str :=
  if isdir t p then
    Path.join p <$> filter (λ name, is_md name = true) (entries t p)
  else if isfile t p && is_md p then [p]
  else [].

(** The input path [p] gets the warning of line 37. *)
Definition ignored (t : gmap str node) (p : str) : Prop :=
  isdir t p = false ∧ isfile t p && is_md p = false.

(** The exception of [read_text] on a path that has no readable text. *)
Definition read_error (t : gmap str node) (path : str) : exn :=
  match t !! path with
  | Some (File _ _) => UnicodeDecodeError path
  | Some (Dir _) => IsADirectoryError path
  | None => FileNotFoundError path
  end.

(** Case analysis on the 256 characters, for a statement about one. *)
Ltac ascii_cases c :=
  destruct c as [[] [] [] [] [] [] [] []];
    (split;
     [ intros H; vm_compute in H;
       first [discriminate H | left; reflexivity | right; reflexivity | reflexivity]
     | intros H; repeat destruct H as [H|H]; first [discriminate H | by subst] ]).

(** A match position [n] characters further on. *)
Definition advance (n : nat) (q : Re.pos) : Re.pos :=
  {| Re.consumed := Re.consumed q + n;
     Re.g_start := Re.g_start q; Re.g_end := Re.g_end q |}.

(** The character before the position reached after reading [l]. *)
Definition prev_after (prev : option ascii) (l : str) : option ascii :=
  match last l with Some c => Some c | None => prev end.

(** ** Example worlds *)

(** The document [a.md] shows [keep.png]; its asset folder also holds
    [stale.png], a file [locked.png] that cannot be removed, and a
    subfolder. *)
Definition demo_fs : gmap str node :=
  {[ ("a.md" : str) := File (Some ("![x](a.assets/keep.png)" : str)) false;
     ("a.assets" : str) := Dir false;
     ("a.assets/keep.png" : str) := File None false;
     ("a.assets/stale.png" : str) := File None false;
     ("a.assets/locked.png" : str) := File None true;
     ("a.assets/sub" : str) := Dir false;
     ("a.assets/sub/deep.png" : str) := File None false ]}.

Definition demo (answers : list str) : world := World demo_fs answers [].


(** A folder of documents: one entry named like a Markdown file is a
    directory, one is a regular file with an upper-case extension. *)
Definition docs_fs : gmap str node :=
  {[ ("docs" : str) := Dir false;
     ("docs/notes.md" : str) := Dir false;
     ("docs/notes.md/inner.md" : str) := File (Some []) false;
     ("docs/readme.MD" : str) := File (Some ("<img src='docs/readme.assets/logo.png'>" : str)) false;
     ("docs/readme.assets" : str) := Dir false;
     ("docs/readme.assets/logo.png" : str) := File None false;
     ("docs/readme.assets/old.png" : str) := File None false;
     ("docs/todo.txt" : str) := File (Some []) false ]}.

(** A document that shows [Img.png] next to a file named [img.png]. *)
Definition case_fs : gmap str node :=
  {[ ("a.md" : str) := File (Some ("![x](a.assets/Img.png)" : str)) false;
     ("a.assets" : str) := Dir false;
     ("a.assets/img.png" : str) := File None false ]}.

(** A document next to a folder of documents that cannot be listed, and
    a document whose asset folder cannot be listed. *)
Definition vault_fs : gmap str node :=
  {[ ("a.md" : str) := File (Some []) false;
     ("vault" : str) := Dir true;
     ("vault/b.md" : str) := File (Some []) false;
     ("c.md" : str) := File (Some []) false;
     ("c.assets" : str) := Dir true;
     ("c.assets/x.png" : str) := File None false ]}.

(** ** Proof automation *)

(** Unfold the monad and the calls that only read or only print. *)
Ltac munfold :=
  unfold mbind, M_bind, mret, M_ret, try_except, gets, print, raise, log,
    os_path_isdir, os_path_isfile.

(** Settle a closed goal by evaluation. *)
Ltac by_computation := vm_compute; first [reflexivity | discriminate | tauto].

(** * Properties *)

(** ** Strings and paths *)

Lemma rfind_go_absent c s i last : c ∉ s → Str.rfind_go c s i last = last.
Proof.
  revert i last. induction s as [|d s IH]; intros i last Hc; simpl; [done|].
  apply not_elem_of_cons in Hc as [Hd Hs].
  rewrite decide_False by done. by apply IH.
Qed.

Lemma rfind_go_last c s i last :
  c ∈ s →
  ∃ s1 s2, s = s1 ++ c :: s2 ∧ (c ∉ s2)
           ∧ Str.rfind_go c s i last = (i + Z.of_nat (length s1))%Z.
Proof.
  revert i last. induction s as [|d s IH]; intros i last Hc; simpl.
  { by apply elem_of_nil in Hc. }
  destruct (decide (c ∈ s)) as [Hs|Hs].
  - destruct (IH (i + 1)%Z (if decide (d = c) then i else last) Hs)
      as (s1 & s2 & -> & Hs2 & ->).
    exists (d :: s1), s2. repeat split; [done|]. simpl length. lia.
  - apply elem_of_cons in Hc as [->|Hc]; [|done].
    exists [], s. rewrite decide_True by done.
    rewrite rfind_go_absent by done. repeat split; [done|]. simpl. lia.
Qed.

Lemma posix_basename_spec p :
  ((Path.sep ∉ p) ∧ Path.posix_basename p = p)
  ∨ (∃ s1 s2, p = s1 ++ Path.sep :: s2 ∧ (Path.sep ∉ s2)
              ∧ Path.posix_basename p = s2).
Proof.
  unfold Path.posix_basename, Str.rfind, Str.from.
  destruct (decide (Path.sep ∈ p)) as [Hin|Hin].
  - right. destruct (rfind_go_last _ _ 0%Z (-1)%Z Hin) as (s1 & s2 & -> & Hs2 & ->).
    exists s1, s2. repeat split; [done|].
    replace (Z.to_nat (0 + Z.of_nat (length s1) + 1)) with (length s1 + 1) by lia.
    rewrite <- drop_drop, drop_app_length. done.
  - left. split; [done|]. by rewrite rfind_go_absent.
Qed.

Lemma posix_basename_no_sep p : Path.sep ∉ Path.posix_basename p.
Proof.
  destruct (posix_basename_spec p) as [[? ->]|(s1 & s2 & _ & ? & ->)]; done.
Qed.

Lemma nt_tail_go_no_sep r acc c :
  (∀ d, d ∈ acc → Path.nt_is_sep d = false) →
  c ∈ Path.nt_tail_go r acc → Path.nt_is_sep c = false.
Proof.
  revert acc. induction r as [|d r IH]; intros acc Hacc; simpl; [by auto|].
  destruct (Path.nt_is_sep d) eqn:Hd; [by auto|].
  apply IH. intros d' [->|?]%elem_of_cons; auto.
Qed.

Lemma nt_basename_no_sep p c :
  c ∈ Path.nt_basename p → Path.nt_is_sep c = false.
Proof.
  apply nt_tail_go_no_sep. intros d Hd. by apply elem_of_nil in Hd.
Qed.

Lemma basename_no_sep fl p : Path.sep ∉ Path.basename fl p.
Proof.
  destruct fl; simpl; [apply posix_basename_no_sep|].
  intros H%nt_basename_no_sep. done.
Qed.

Lemma lstrip_spec s :
  ∃ ws, s = ws ++ Str.lstrip s
        ∧ ∀ c r, Str.lstrip s = c :: r → Str.is_space c = false.
Proof.
  induction s as [|d s (ws & Hs & Hhd)]; simpl.
  - exists []. split; [done|]. intros ? ? [=].
  - destruct (Str.is_space d) eqn:Hd.
    + exists (d :: ws). split; [simpl; by f_equal|done].
    + exists []. split; [done|]. by intros ? ? [= <- _].
Qed.

Lemma strip_head s c r : Str.strip s = c :: r → Str.is_space c = false.
Proof.
  unfold Str.strip, Str.rstrip. intros Hs.
  destruct (lstrip_spec s) as (_ & _ & Hhd).
  destruct (lstrip_spec (reverse (Str.lstrip s))) as (ws & Hrev & _).
  apply (f_equal reverse) in Hrev.
  rewrite reverse_involutive, reverse_app, Hs in Hrev.
  by apply (Hhd c (r ++ reverse ws)).
Qed.

Lemma split_go_word w s : Str.split_go (Some w) s ≠ [].
Proof.
  revert w. induction s as [|c s IH]; intros w; simpl; [done|].
  destruct (Str.is_space c); [done|apply IH].
Qed.

Lemma split_head s c r : s = c :: r → Str.is_space c = false → Str.split s ≠ [].
Proof. intros -> Hc. unfold Str.split. simpl. rewrite Hc. apply split_go_word. Qed.

(** ** The matcher and the path functions on examples *)

Example md_image_matches :
  Re.finditer md_image_re
    "![x](a.assets/keep.png) and ![y](<b c.png>) ![z](pic.png 'title') !![a](b)](c)"
  = [("a.assets/keep.png" : str); ("<b c.png>" : str);
     ("pic.png 'title'" : str); ("b" : str)].
Proof. by_computation. Qed.

Example html_img_matches :
  Re.finditer html_img_re
    "<IMG alt='x' SRC='a/b.png'> <imgsrc='no.png'> <img  src='' > <img x src='q'"
  = [("a/b.png" : str); ("q" : str)].
Proof. by_computation. Qed.

Example ref_def_matches :
  Re.finditer ref_def_re
    ("[1]: b.assets/one.png" ++ ["010"%char] ++ "  [2]: b.assets/two.jpg"
     ++ ["010"%char] ++ "x [3]: no.png")
  = [("b.assets/one.png" : str); ("b.assets/two.jpg" : str)].
Proof. by_computation. Qed.

Example asset_like_matches :
  Re.finditer asset_like_re
    "see (foo.assets/na me(1).png) and x.assets\y.png) b.assets/c.png"
  = [("na me(1).png" : str); ("y.png" : str)].
Proof. by_computation. Qed.

Example md_target_examples :
  md_target "  <b c.png>  " = ("b" : str)
  ∧ md_target "pic.png 'title'" = ("pic.png 'title'" : str)
  ∧ md_target "pic.png title" = ("pic.png" : str).
Proof. split_and!; by_computation. Qed.

Example splitext_examples :
  Path.splitext "docs/readme.MD" = (("docs/readme" : str), (".MD" : str))
  ∧ Path.splitext "d.e/.md" = (("d.e/.md" : str), [])
  ∧ Path.splitext "a.b.md" = (("a.b" : str), (".md" : str)).
Proof. split_and!; by_computation. Qed.

Example basename_examples :
  Path.basename Path.Posix "a.assets/sub/x.png" = ("x.png" : str)
  ∧ Path.basename Path.Posix "dir\file.png" = ("dir\file.png" : str)
  ∧ Path.basename Path.Nt "dir\file.png" = ("file.png" : str)
  ∧ Path.basename Path.Nt "c:file.png" = ("file.png" : str)
  ∧ Path.basename Path.Posix "a/" = [].
Proof. split_and!; by_computation. Qed.

Example extract_image_paths_example :
  Str.sorted
    (elements (extract_image_paths Path.Posix
                 ("![x](a.assets/keep.png)" ++ ["010"%char]
                  ++ "[1]: b.assets/one.png <img src='c/two.jpg'> ![e]( )")))
  = [("keep.png" : str); ("one.png" : str); ("two.jpg" : str)].
Proof. by_computation. Qed.

(** ** The reference extractor *)

(** [raw.split()[0]] on line 61 is always defined: where the test of
    line 60 holds, [raw] is stripped and not empty. *)
Lemma md_target_split_defined group1 :
  Str.contains " " (md_unwrap group1) = true →
  is_Some (Str.split (md_unwrap group1) !! 0).
Proof.
  intros Hc. apply lookup_lt_is_Some.
  assert (Str.split (md_unwrap group1) ≠ []) as Hne;
    [|destruct (Str.split _); [done|simpl; lia]].
  unfold Str.contains in Hc. apply bool_decide_eq_true in Hc.
  unfold md_unwrap in *.
  destruct (_ && _);
    (destruct (Str.strip _) as [|c r] eqn:Hs;
     [by apply elem_of_nil in Hc|];
     eapply split_head; [done|by eapply strip_head]).
Qed.

Lemma elem_of_add_all fl f re markdown refs x :
  x ∈ add_all fl f re markdown refs
  ↔ x ∈ refs ∨ ∃ g, g ∈ Re.finditer re markdown ∧ x = Path.basename fl (f g).
Proof.
  unfold add_all. generalize (Re.finditer re markdown) as gs.
  intros gs. revert refs. induction gs as [|g gs IH]; intros refs; simpl.
  - split; [by left|]. intros [?|(g & Hg & _)]; [done|].
    by apply elem_of_nil in Hg.
  - rewrite IH, elem_of_union, elem_of_singleton. split.
    + intros [[?| ->]|(g' & Hg' & ->)]; [by left| |].
      * right. exists g. split; [left|done].
      * right. exists g'. split; [by right|done].
    + intros [?|(g' & [-> |Hg']%elem_of_cons & ->)].
      * by left; left.
      * by left; right.
      * right. by exists g'.
Qed.

Lemma elem_of_extract_image_paths fl markdown x :
  x ∈ extract_image_paths fl markdown ↔ scanned fl markdown x ∧ x ≠ [].
Proof.
  unfold extract_image_paths, scanned.
  rewrite elem_of_difference, not_elem_of_singleton, !elem_of_add_all.
  unfold id. pose proof (not_elem_of_empty (C:=gset str) x). tauto.
Qed.

(** C9 (amended).  Every string in the set returned by the reference
    extractor is non-empty and contains no [/]; with the Windows flavour
    of [os.path.basename] it contains no backslash either.  With the
    POSIX flavour a backslash is an ordinary character of a file name and
    can remain. *)
Theorem extract_image_paths_basenames fl markdown x :
  x ∈ extract_image_paths fl markdown →
  x ≠ [] ∧ ("/"%char ∉ x) ∧ (fl = Path.Nt → "\"%char ∉ x).
Proof.
  intros [Hscan Hne]%elem_of_extract_image_paths.
  split; [done|].
  assert (∃ y, x = Path.basename fl y) as [y ->].
  { destruct Hscan as [(g & _ & ->)|[(g & _ & ->)|[(g & _ & ->)|(g & _ & ->)]]];
      eauto. }
  split; [apply basename_no_sep|].
  intros -> Hin. by apply nt_basename_no_sep in Hin.
Qed.

Lemma extract_image_paths_basenames_witness :
  ("file.png" : str) ≠ [] ∧ ("/"%char ∉ ("file.png" : str))
  ∧ (Path.Nt = Path.Nt → "\"%char ∉ ("file.png" : str)).
Proof.
  apply (extract_image_paths_basenames Path.Nt "![a](dir\file.png)").
  vm_compute. reflexivity.
Defined.

(** C9 as stated fails: under POSIX the target [dir\file.png] of a
    Markdown image is its own basename, backslash included. *)
Lemma extract_image_paths_keeps_backslash :
  ("dir\file.png" : str) ∈ extract_image_paths Path.Posix "![a](dir\file.png)"
  ∧ "\"%char ∈ ("dir\file.png" : str).
Proof. split; [vm_compute; reflexivity|]. by apply (bool_decide_unpack _). Qed.

(** ** The monad and the system calls *)

Lemma os_path_isfile_run p w : os_path_isfile p w = (w, inr (isfile (fs w) p)).
Proof. done. Qed.

Lemma os_path_isdir_run p w : os_path_isdir p w = (w, inr (isdir (fs w) p)).
Proof. done. Qed.

Lemma filter_m_isfile asset_dir names w :
  filter_m (λ f, os_path_isfile (Path.join asset_dir f)) names w
  = (w, inr (filter (λ f, isfile (fs w) (Path.join asset_dir f) = true) names)).
Proof.
  induction names as [|f names IH]; [done|].
  simpl. unfold mbind, M_bind. rewrite os_path_isfile_run, IH, filter_cons.
  destruct (isfile _ _); by case_decide.
Qed.

Lemma for_each_print {A} (g : A → message) l w :
  for_each l (λ x, print (g x)) w
  = (World (fs w) (stdin w) (trace w ++ (EvPrint ∘ g <$> l)), inr ()).
Proof.
  revert w. induction l as [|x l IH]; intros w; simpl.
  - munfold. rewrite app_nil_r. by destruct w.
  - munfold. rewrite IH. simpl. by rewrite <- app_assoc.
Qed.

Lemma removals_app evs1 evs2 : removals (evs1 ++ evs2) = removals evs1 ++ removals evs2.
Proof. apply omap_app. Qed.
Lemma prompts_app evs1 evs2 : prompts (evs1 ++ evs2) = prompts evs1 ++ prompts evs2.
Proof. apply omap_app. Qed.
Lemma reads_app evs1 evs2 : reads (evs1 ++ evs2) = reads evs1 ++ reads evs2.
Proof. apply omap_app. Qed.
Lemma printed_app evs1 evs2 : printed (evs1 ++ evs2) = printed evs1 ++ printed evs2.
Proof. apply omap_app. Qed.
Lemma unused_lines_app evs1 evs2 :
  unused_lines (evs1 ++ evs2) = unused_lines evs1 ++ unused_lines evs2.
Proof. unfold unused_lines. by rewrite printed_app, omap_app. Qed.

Lemma removals_prints {A} (g : A → message) l : removals (EvPrint ∘ g <$> l) = [].
Proof. by induction l. Qed.
Lemma prompts_prints {A} (g : A → message) l : prompts (EvPrint ∘ g <$> l) = [].
Proof. by induction l. Qed.
Lemma reads_prints {A} (g : A → message) l : reads (EvPrint ∘ g <$> l) = [].
Proof. by induction l. Qed.
Lemma unused_lines_unused l : unused_lines (EvPrint ∘ MsgUnusedFile <$> l) = l.
Proof. induction l as [|f l IH]; [done|]. unfold unused_lines in *. simpl. by f_equal. Qed.



Lemma shrinks_delete t p c l : t !! p = Some (File c l) → shrinks t (delete p t).
Proof.
  intros Hp q. destruct (decide (p = q)) as [<-|Hne].
  - right. rewrite lookup_delete_eq. eauto.
  - left. by rewrite lookup_delete_ne.
Qed.

(** ** The deletion loop *)

Lemma removals_cons_remove p ok evs :
  removals (EvRemove p ok :: evs) = (p, ok) :: removals evs.
Proof. done. Qed.

Lemma removals_cons_print m evs : removals (EvPrint m :: evs) = removals evs.
Proof. done. Qed.

Lemma delete_loop_spec asset_dir unused deleted w :
  ∃ w' evs,
    delete_loop asset_dir unused deleted w
    = (w', inr (deleted + length (filter (λ r, r.2 = true) (removals evs))))
    ∧ trace w' = trace w ++ evs
    ∧ stdin w' = stdin w
    ∧ (removals evs).*1 = Path.join asset_dir <$> unused
    ∧ prompts evs = [] ∧ reads evs = [] ∧ unused_lines evs = []
    ∧ (∀ fp, (fp, false) ∈ removals evs → ∃ e, EvPrint (MsgFailed fp e) ∈ evs)
    ∧ (∀ p, fs w' !! p = fs w !! p
            ∨ (fs w' !! p = None ∧ (∃ c, fs w !! p = Some (File c false))
               ∧ (p, true) ∈ removals evs))
    ∧ (∀ f, f ∈ unused → (Path.join asset_dir f, false) ∉ removals evs →
            fs w' !! Path.join asset_dir f = None).
Proof.
  revert deleted w. induction unused as [|f unused IH]; intros deleted w.
  { exists w, []. simpl. rewrite app_nil_r, Nat.add_0_r.
    repeat split; try done.
    - intros fp Hfp. by apply elem_of_nil in Hfp.
    - by left.
    - intros f Hf. by apply elem_of_nil in Hf. }
  simpl. set (fp := Path.join asset_dir f).
  unfold os_remove. munfold. simpl.
  destruct (fs w !! fp) as [[c [|]|]|] eqn:Hfp; simpl.
  all: match goal with
       | |- context [delete_loop _ _ ?d ?w1] =>
           destruct (IH d w1) as (w' & evs & -> & Htr & Hin & Hrm & Hpr & Hrd
                                  & Hul & Hfail & Hfs & Hgone)
       end; simpl in *.
  all: eexists w', (_ :: _ :: evs); rewrite Htr, <- !app_assoc; simpl app.
  all: split;
    [|split; [done|split; [done|split; [simpl; f_equal; exact Hrm|split; [done|
     split; [done|split; [done|split; [|split]]]]]]]].
  all: try (intros fp0 [[= ->]|Hin0]%elem_of_cons;
            [eexists; by right; left
            |destruct (Hfail _ Hin0) as [e He]; exists e; by do 2 right]).
  all: try (intros p; destruct (Hfs p) as [->|(-> & Hc & Hin0)];
            [by left|right; repeat split; [done|by right]]).
  all: try (intros f0 [->|Hf0]%elem_of_cons Hnot;
            [exfalso; apply Hnot; by left
            |apply Hgone; [done|intros Hin0; apply Hnot; by right]]).
  all: rewrite ?removals_cons_remove, ?removals_cons_print.
  all: try (by rewrite filter_cons_False by (by intros [=])).
  - rewrite filter_cons_True by done. simpl length. do 2 f_equal. lia.
  - intros fp0 [[=]|Hin0]%elem_of_cons.
    destruct (Hfail _ Hin0) as [e He]. exists e. by do 2 right.
  - intros p. destruct (decide (p = fp)) as [->|Hne].
    + right. split; [|split; [eauto|by left]].
      destruct (Hfs fp) as [->|[-> _]]; [apply lookup_delete_eq|done].
    + destruct (Hfs p) as [->|(-> & Hc & Hin0)].
      * left. by apply lookup_delete_ne.
      * right. rewrite lookup_delete_ne in Hc by done.
        split; [done|split; [done|by right]].
  - intros f0 [->|Hf0]%elem_of_cons Hnot.
    + fold fp. destruct (Hfs fp) as [->|[-> _]]; [apply lookup_delete_eq|done].
    + apply Hgone; [done|intros Hin0; apply Hnot; by right].
Qed.

(** ** One document *)

Lemma fs_logs evs w : fs (logs evs w) = fs w.
Proof. done. Qed.

Lemma stdin_logs evs w : stdin (logs evs w) = stdin w.
Proof. done. Qed.

Lemma trace_logs evs w : trace (logs evs w) = trace w ++ evs.
Proof. done. Qed.

Lemma logs_logs evs1 evs2 w : logs evs2 (logs evs1 w) = logs (evs1 ++ evs2) w.
Proof. unfold logs. simpl. by rewrite <- app_assoc. Qed.

Lemma read_text_run path w :
  read_text path w
  = (logs [EvRead path] w,
     match fs w !! path with
     | Some (File (Some text) _) => inr text
     | Some (File None _) => inl (UnicodeDecodeError path)
     | Some (Dir _) => inl (IsADirectoryError path)
     | None => inl (FileNotFoundError path)
     end).
Proof. unfold read_text. by destruct (fs w !! path) as [[[?|] ?|?]|]. Qed.

Lemma process_markdown_unreadable md dry_run yes w :
  text_of (fs w) md = None →
  ∃ e, process_markdown md dry_run yes w = (logs [EvRead md] w, inl e).
Proof.
  unfold text_of, process_markdown. intros Ht.
  unfold mbind at 1, M_bind at 1. rewrite read_text_run.
  destruct (fs w !! md) as [[[?|] ?|?]|]; try done; eauto.
Qed.

Lemma bind_run {A B} (m : M A) (f : A → M B) w w' a :
  m w = (w', inr a) → (m ≫= f) w = f a w'.
Proof. unfold mbind, M_bind. by intros ->. Qed.

Lemma print_run m w : print m w = (logs [EvPrint m] w, inr ()).
Proof. done. Qed.

Lemma report_run asset_dir referenced unused w :
  report asset_dir referenced unused w
  = (logs (report_events asset_dir referenced unused) w, inr ()).
Proof.
  unfold report.
  do 3 (erewrite bind_run by apply print_run).
  rewrite for_each_print. unfold logs, report_events. simpl.
  by rewrite <- !app_assoc.
Qed.

Lemma process_markdown_readable md dry_run yes w text :
  text_of (fs w) md = Some text →
  let asset_dir := asset_dir_of md in
  let referenced := extract_image_paths Path.Posix text in
  let all_files := all_files_of (fs w) asset_dir in
  let unused := unused_of referenced all_files in
  process_markdown md dry_run yes w =
    if negb (listable (fs w) asset_dir) then
      if isdir (fs w) asset_dir then
        (logs [EvRead md] w, inl (PermissionError asset_dir))
      else (logs [EvRead md; EvPrint (MsgNoAssetDir md asset_dir)] w, inr 0)
    else if bool_decide (all_files = []) then
      (logs [EvRead md; EvPrint (MsgNoFiles asset_dir)] w, inr 0)
    else if bool_decide (unused = []) then
      (logs [EvRead md; EvPrint (MsgNoUnused asset_dir)] w, inr 0)
    else
      delete_unused asset_dir unused dry_run yes
        (logs (EvRead md :: report_events asset_dir referenced unused) w).
Proof.
  unfold text_of. intros Ht. simpl. unfold process_markdown.
  unfold mbind at 1, M_bind at 1. rewrite read_text_run.
  destruct (fs w !! md) as [[[?|] ?|?]|]; try done. injection Ht as ->.
  unfold mbind at 1, M_bind at 1. rewrite os_path_isdir_run, fs_logs.
  unfold listable.
  destruct (isdir (fs w) (asset_dir_of md)) eqn:Hdir; cbn [negb].
  2:{ erewrite bind_run by apply print_run. rewrite logs_logs.
      unfold isdir in Hdir.
      by destruct (fs w !! asset_dir_of md) as [[|[|]]|]. }
  unfold mbind at 1, M_bind at 1, os_listdir. rewrite fs_logs.
  unfold isdir in Hdir.
  destruct (fs w !! asset_dir_of md) as [[|[|]]|]; try done.
  cbn [negb].
  unfold mbind at 1, M_bind at 1. rewrite filter_m_isfile, fs_logs.
  fold (all_files_of (fs w) (asset_dir_of md)).
  case_bool_decide.
  { erewrite bind_run by apply print_run. by rewrite logs_logs. }
  case_bool_decide.
  { erewrite bind_run by apply print_run. by rewrite logs_logs. }
  erewrite bind_run by apply report_run. by rewrite logs_logs.
Qed.

Lemma delete_unused_dry_run asset_dir unused yes w :
  delete_unused asset_dir unused true yes w = (logs [EvPrint MsgDryRun] w, inr 0).
Proof. done. Qed.

Lemma delete_unused_yes asset_dir unused w :
  delete_unused asset_dir unused false true w = delete_loop asset_dir unused 0 w.
Proof. done. Qed.

Lemma delete_unused_eof asset_dir unused w :
  stdin w = [] →
  delete_unused asset_dir unused false false w = (logs [EvInput None] w, inl EOFError).
Proof.
  intros Hin. unfold delete_unused. simpl. unfold mbind, M_bind, input.
  by rewrite Hin.
Qed.

Lemma delete_unused_answer asset_dir unused w ans rest :
  stdin w = ans :: rest →
  let w1 := World (fs w) rest (trace w ++ [EvInput (Some ans)]) in
  delete_unused asset_dir unused false false w
  = if decide (affirmative ans) then delete_loop asset_dir unused 0 w1
    else (logs [EvPrint MsgAborted] w1, inr 0).
Proof.
  intros Hin. unfold delete_unused. simpl. unfold mbind at 1, M_bind at 1, input.
  rewrite Hin. unfold affirmative.
  case_bool_decide; case_decide; done.
Qed.

(** C8.  With both flags set and a non-empty unused list, the dry run
    wins: the operator is not asked, nothing is removed, and the document
    returns zero. *)
Theorem dry_run_takes_precedence md w text :
  text_of (fs w) md = Some text →
  listable (fs w) (asset_dir_of md) = true →
  unused_of (extract_image_paths Path.Posix text)
            (all_files_of (fs w) (asset_dir_of md)) ≠ [] →
  ∃ evs,
    process_markdown md true true w = (logs evs w, inr 0)
    ∧ prompts evs = [] ∧ removals evs = []
    ∧ last evs = Some (EvPrint MsgDryRun).
Proof.
  intros Ht Hdir Hun.
  rewrite (process_markdown_readable _ _ _ _ _ Ht), Hdir. cbn [negb].
  rewrite bool_decide_false, bool_decide_false; [|done|].
  2:{ intros Hall. by rewrite Hall in Hun. }
  rewrite delete_unused_dry_run, logs_logs.
  eexists. split; [done|]. unfold report_events.
  rewrite !app_comm_cons, !prompts_app, !removals_app, prompts_prints,
    removals_prints, last_snoc.
  done.
Qed.

Lemma dry_run_takes_precedence_witness :
  ∃ evs,
    process_markdown "a.md" true true (demo []) = (logs evs (demo []), inr 0)
    ∧ prompts evs = [] ∧ removals evs = []
    ∧ last evs = Some (EvPrint MsgDryRun).
Proof.
  apply (dry_run_takes_precedence "a.md" (demo []) "![x](a.assets/keep.png)");
    by_computation.
Defined.

Lemma unused_files_readable t md text :
  text_of t md = Some text → listable t (asset_dir_of md) = true →
  unused_files t md
  = unused_of (extract_image_paths Path.Posix text)
              (all_files_of t (asset_dir_of md)).
Proof. unfold unused_files. by intros -> ->. Qed.

Lemma listable_spec t p :
  listable t p = true ↔ isdir t p = true ∧ unlistable t p = false.
Proof.
  unfold listable, isdir, unlistable.
  destruct (t !! p) as [[|[|]]|]; split; try done; by intros [? ?].
Qed.

Lemma unlistable_spec t p :
  unlistable t p = true ↔ isdir t p = true ∧ listable t p = false.
Proof.
  unfold listable, isdir, unlistable.
  destruct (t !! p) as [[|[|]]|]; split; try done; by intros [? ?].
Qed.

Lemma unused_files_cons t md f l :
  unused_files t md = f :: l →
  ∃ text, text_of t md = Some text ∧ listable t (asset_dir_of md) = true.
Proof.
  unfold unused_files. destruct (text_of t md); [|done].
  destruct (listable t _); [eauto|done].
Qed.

Lemma deletion_reached asset_dir unused yes w :
  confirmed yes w →
  ∃ w1 evs1,
    delete_unused asset_dir unused false yes w
    = delete_loop asset_dir unused 0 w1
    ∧ fs w1 = fs w ∧ trace w1 = trace w ++ evs1
    ∧ removals evs1 = [] ∧ reads evs1 = [] ∧ unused_lines evs1 = []
    ∧ prompts evs1 = (if yes then [] else Some <$> take 1 (stdin w))
    ∧ stdin w1 = (if yes then stdin w else drop 1 (stdin w)).
Proof.
  intros Hgo. destruct yes.
  - exists w, []. rewrite delete_unused_yes, app_nil_r. done.
  - destruct Hgo as [?|(ans & rest & Hin & Haff)]; [done|].
    rewrite (delete_unused_answer _ _ _ _ _ Hin), decide_True by done.
    eexists _, [_]. rewrite Hin. done.
Qed.

(** What a document does when the deletion is reached. *)
Lemma process_markdown_deletes md yes w :
  unused_files (fs w) md ≠ [] →
  confirmed yes w →
  ∃ w' evs,
    process_markdown md false yes w = (w', inr (length (succeeded evs)))
    ∧ trace w' = trace w ++ evs
    ∧ reads evs = [md]
    ∧ unused_lines evs = unused_files (fs w) md
    ∧ prompts evs = (if yes then [] else Some <$> take 1 (stdin w))
    ∧ stdin w' = (if yes then stdin w else drop 1 (stdin w))
    ∧ (removals evs).*1 = Path.join (asset_dir_of md) <$> unused_files (fs w) md
    ∧ (∀ fp, (fp, false) ∈ removals evs → ∃ e, EvPrint (MsgFailed fp e) ∈ evs)
    ∧ (∀ p, fs w' !! p = fs w !! p
            ∨ (fs w' !! p = None ∧ (∃ c, fs w !! p = Some (File c false))
               ∧ (p, true) ∈ removals evs))
    ∧ (∀ f, f ∈ unused_files (fs w) md →
            (Path.join (asset_dir_of md) f, false) ∉ removals evs →
            fs w' !! Path.join (asset_dir_of md) f = None).
Proof.
  intros Hun Hgo.
  destruct (unused_files (fs w) md) as [|f0 l0] eqn:Hu; [done|].
  destruct (unused_files_cons _ _ _ _ Hu) as (text & Ht & Hdir).
  rewrite (unused_files_readable _ _ _ Ht Hdir) in Hu.
  rewrite (process_markdown_readable _ _ _ _ _ Ht), Hdir. cbn [negb].
  rewrite bool_decide_false, bool_decide_false; [| |].
  2:{ by rewrite Hu. }
  2:{ intros Hall. by rewrite Hall in Hu. }
  rewrite Hu. set (unused := f0 :: l0) in *.
  set (referenced := extract_image_paths Path.Posix text) in *.
  match goal with |- context [delete_unused _ _ _ _ ?w0] =>
    destruct (deletion_reached (asset_dir_of md) unused yes w0 Hgo)
      as (w1 & evs1 & -> & Hfs1 & Htr1 & Hrm1 & Hrd1 & Hul1 & Hpr1 & Hin1)
  end.
  destruct (delete_loop_spec (asset_dir_of md) unused 0 w1)
    as (w' & evs & -> & Htr & Hin & Hrm & Hpr & Hrd & Hul & Hfail & Hfs & Hgone).
  set (all := EvRead md :: report_events (asset_dir_of md) referenced unused
                ++ evs1 ++ evs).
  assert (removals all = removals evs) as Hrem.
  { unfold all, report_events.
    rewrite !app_comm_cons, !removals_app, removals_prints, Hrm1. done. }
  exists w', all. unfold succeeded. rewrite Hrem.
  split; [done|]. split; [|split; [|split; [|split; [|split; [|split;
    [exact Hrm|split; [|split; [|exact Hgone]]]]]]]].
  - rewrite Htr, Htr1, trace_logs, <- !app_assoc. done.
  - unfold all, report_events.
    rewrite !app_comm_cons, !reads_app, reads_prints, Hrd1, Hrd. done.
  - unfold all, report_events.
    rewrite !app_comm_cons, !unused_lines_app, unused_lines_unused, Hul1, Hul.
    by rewrite app_nil_r.
  - unfold all, report_events.
    rewrite !app_comm_cons, !prompts_app, prompts_prints, Hpr1, Hpr.
    rewrite stdin_logs. simpl. by rewrite app_nil_r.
  - by rewrite Hin, Hin1, stdin_logs.
  - intros fp Hfp. destruct (Hfail fp Hfp) as [e He].
    exists e. unfold all. rewrite elem_of_cons, !elem_of_app. auto.
  - intros p. rewrite Hfs1, fs_logs in Hfs. apply Hfs.
Qed.



Lemma report_events_quiet asset_dir referenced unused :
  removals (report_events asset_dir referenced unused) = []
  ∧ prompts (report_events asset_dir referenced unused) = []
  ∧ reads (report_events asset_dir referenced unused) = []
  ∧ unused_lines (report_events asset_dir referenced unused) = unused.
Proof.
  unfold report_events.
  rewrite removals_app, prompts_app, reads_app, unused_lines_app,
    removals_prints, prompts_prints, reads_prints, unused_lines_unused.
  done.
Qed.

(** What a document does when the operator declines. *)
Lemma process_markdown_declined md w ans rest :
  unused_files (fs w) md ≠ [] →
  stdin w = ans :: rest →
  ¬ affirmative ans →
  ∃ evs,
    process_markdown md false false w
    = (World (fs w) rest (trace w ++ evs), inr 0)
    ∧ removals evs = [] ∧ reads evs = [md]
    ∧ unused_lines evs = unused_files (fs w) md
    ∧ prompts evs = [Some ans]
    ∧ last evs = Some (EvPrint MsgAborted).
Proof.
  intros Hun Hin Hno.
  destruct (unused_files (fs w) md) as [|f0 l0] eqn:Hu; [done|].
  destruct (unused_files_cons _ _ _ _ Hu) as (text & Ht & Hdir).
  rewrite (unused_files_readable _ _ _ Ht Hdir) in Hu.
  rewrite (process_markdown_readable _ _ _ _ _ Ht), Hdir. cbn [negb].
  rewrite bool_decide_false, bool_decide_false; [| |].
  2:{ by rewrite Hu. }
  2:{ intros Hall. by rewrite Hall in Hu. }
  rewrite Hu.
  erewrite delete_unused_answer by (rewrite stdin_logs; exact Hin).
  rewrite decide_False by done. unfold logs. simpl.
  destruct (report_events_quiet (asset_dir_of md)
              (extract_image_paths Path.Posix text) (f0 :: l0))
    as (Hrm & Hpr & Hrd & Hul).
  eexists (EvRead md :: report_events _ _ _
             ++ [EvInput (Some ans); EvPrint MsgAborted]).
  split; [by rewrite <- !app_assoc|].
  rewrite !app_comm_cons, removals_app, reads_app, unused_lines_app,
    prompts_app.
  change (EvRead md :: report_events ?a ?b ?c)
    with ([EvRead md] ++ report_events a b c).
  rewrite removals_app, reads_app, unused_lines_app, prompts_app,
    Hrm, Hpr, Hrd, Hul.
  repeat split; try done.
  - simpl. by rewrite app_nil_r.
  - change [EvInput (Some ans); EvPrint MsgAborted]
      with ([EvInput (Some ans)] ++ [EvPrint MsgAborted]).
    by rewrite !app_assoc, last_snoc.
Qed.

(** Every outcome of a document: either nothing is removed, or the
    deletion is reached. *)
Lemma process_markdown_cases md dry_run yes w :
  (∃ evs r ins,
      process_markdown md dry_run yes w
      = (World (fs w) ins (trace w ++ evs), r)
      ∧ removals evs = [] ∧ reads evs = [md]
      ∧ unused_lines evs = unused_files (fs w) md
      ∧ (r = inr 0
         ∨ ∃ e, r = inl e
                ∧ (text_of (fs w) md = None
                   ∨ unlistable (fs w) (asset_dir_of md) = true
                   ∨ (dry_run = false ∧ yes = false ∧ stdin w = [])))
      ∧ (dry_run = true ∨ yes = true → prompts evs = [] ∧ ins = stdin w)
      ∧ (dry_run = false → yes = true → unused_files (fs w) md = []))
  ∨ (dry_run = false ∧ unused_files (fs w) md ≠ [] ∧ confirmed yes w).
Proof.
  destruct (unused_files (fs w) md) as [|f0 l0] eqn:Hu.
  - (* nothing to report *)
    left. unfold unused_files in Hu.
    destruct (text_of (fs w) md) as [text|] eqn:Ht.
    + rewrite (process_markdown_readable _ _ _ _ _ Ht).
      destruct (listable (fs w) (asset_dir_of md)) eqn:Hl; cbn [negb].
      * rewrite Hu. rewrite (bool_decide_true ([] = [])) by done.
        case_bool_decide; eexists _, _, _; (split; [done|]);
          repeat split; eauto.
      * destruct (isdir (fs w) (asset_dir_of md)) eqn:Hd.
        -- assert (unlistable (fs w) (asset_dir_of md) = true)
             by (by apply unlistable_spec).
           eexists _, _, _. split; [done|]. repeat split; eauto 6.
        -- eexists _, _, _. split; [done|]. repeat split; eauto.
    + destruct (process_markdown_unreadable md dry_run yes w Ht) as [e ->].
      eexists _, _, _. split; [done|]. repeat split; eauto.
  - assert (unused_files (fs w) md ≠ []) as Hne by (by rewrite Hu).
    destruct dry_run.
    { (* dry run *)
      left. destruct (unused_files_cons _ _ _ _ Hu) as (text & Ht & Hdir).
      rewrite (unused_files_readable _ _ _ Ht Hdir) in Hu.
      rewrite (process_markdown_readable _ _ _ _ _ Ht), Hdir. cbn [negb].
      rewrite bool_decide_false, bool_decide_false; [| |].
      2:{ by rewrite Hu. }
      2:{ intros Hall. by rewrite Hall in Hu. }
      rewrite Hu, delete_unused_dry_run, logs_logs.
      destruct (report_events_quiet (asset_dir_of md)
                  (extract_image_paths Path.Posix text) (f0 :: l0))
        as (Hrm & Hpr & Hrd & Hul).
      eexists _, _, _. split; [done|].
      change (EvRead md :: report_events ?a ?b ?c)
        with ([EvRead md] ++ report_events a b c).
      rewrite !removals_app, !reads_app, !unused_lines_app, !prompts_app,
        Hrm, Hpr, Hrd, Hul.
      repeat split; eauto; [|done]. simpl. by rewrite app_nil_r. }
    destruct yes; [right; repeat split; [done|by left]|].
    destruct (stdin w) as [|ans rest] eqn:Hin.
    { (* end of input *)
      left. destruct (unused_files_cons _ _ _ _ Hu) as (text & Ht & Hdir).
      rewrite (unused_files_readable _ _ _ Ht Hdir) in Hu.
      rewrite (process_markdown_readable _ _ _ _ _ Ht), Hdir. cbn [negb].
      rewrite bool_decide_false, bool_decide_false; [| |].
      2:{ by rewrite Hu. }
      2:{ intros Hall. by rewrite Hall in Hu. }
      rewrite Hu, delete_unused_eof, logs_logs by done.
      destruct (report_events_quiet (asset_dir_of md)
                  (extract_image_paths Path.Posix text) (f0 :: l0))
        as (Hrm & Hpr & Hrd & Hul).
      eexists _, _, _. split; [done|].
      change (EvRead md :: report_events ?a ?b ?c)
        with ([EvRead md] ++ report_events a b c).
      rewrite !removals_app, !reads_app, !unused_lines_app,
        Hrm, Hrd, Hul.
      split_and!; try done.
      - simpl. by rewrite app_nil_r.
      - right. eauto 8.
      - by intros [|]. }
    destruct (decide (affirmative ans)) as [Haff|Hno].
    { right. repeat split; [done|]. right. eauto. }
    left. destruct (process_markdown_declined md w ans rest Hne Hin Hno)
      as (evs & -> & Hrm & Hrd & Hul & _).
    eexists _, _, _. split; [done|]. rewrite Hu in Hul.
    split_and!; try done; [by left|by intros [|]].
Qed.

(** ** Directory listings *)

Lemma startswith_spec s pre :
  Str.startswith s pre = true ↔ ∃ r, s = pre ++ r.
Proof.
  revert s. induction pre as [|c pre IH]; intros s.
  { destruct s; (split; [by eexists|done]). }
  destruct s as [|d s]; simpl.
  { split; [done|]. by intros [r [=]]. }
  rewrite andb_true_iff, Ascii.eqb_eq, IH. split.
  - intros [-> [r ->]]. by exists r.
  - intros [r [= -> ->]]. split; [done|by exists r].
Qed.

Lemma child_name_spec d k n :
  child_name d k = Some n ↔ k = dir_prefix d ++ n ∧ n ≠ [] ∧ (Path.sep ∉ n).
Proof.
  unfold child_name, Str.contains.
  destruct (Str.startswith k (dir_prefix d)) eqn:Hpre; simpl.
  - apply startswith_spec in Hpre as [r ->]. rewrite drop_app_length.
    repeat case_bool_decide; simpl; split;
      try (by intros [= ->]); try done;
      intros (->%app_inv_head & ? & ?); done.
  - split; [done|]. intros (-> & _).
    assert (Str.startswith (dir_prefix d ++ n) (dir_prefix d) = true)
      by (apply startswith_spec; eauto).
    congruence.
Qed.

Lemma elem_of_entries t d n :
  n ∈ entries t d
  ↔ is_Some (t !! (dir_prefix d ++ n)) ∧ n ≠ [] ∧ (Path.sep ∉ n).
Proof.
  unfold entries. rewrite list_elem_of_omap. split.
  - intros (k & Hk & (-> & ? & ?)%child_name_spec).
    apply list_elem_of_fmap in Hk as ([k' x] & -> & Hk).
    apply elem_of_map_to_list in Hk. simpl in *. eauto.
  - intros ([x Hx] & ? & ?). exists (dir_prefix d ++ n). split.
    + apply list_elem_of_fmap. exists (dir_prefix d ++ n, x).
      split; [done|]. by apply elem_of_map_to_list.
    + by apply child_name_spec.
Qed.

Lemma join_child d n :
  d ≠ [] → Path.sep ∉ n → Path.join d n = dir_prefix d ++ n.
Proof.
  intros Hd Hn. unfold Path.join, dir_prefix.
  destruct (Str.startswith n [Path.sep]) eqn:Hpre.
  { apply startswith_spec in Hpre as [r ->]. exfalso. apply Hn. by left. }
  rewrite bool_decide_false by done. simpl.
  destruct (Str.endswith d [Path.sep]); [done|]. by rewrite <- app_assoc.
Qed.

Lemma asset_dir_of_nonempty md : asset_dir_of md ≠ [].
Proof.
  unfold asset_dir_of. destruct (Path.splitext md) as [base ext].
  intros H. by apply app_eq_nil in H as [_ [=]].
Qed.

Lemma elem_of_all_files_of t asset_dir f :
  f ∈ all_files_of t asset_dir
  ↔ f ∈ entries t asset_dir ∧ isfile t (Path.join asset_dir f) = true.
Proof. unfold all_files_of. by rewrite list_elem_of_filter, (comm _ (_ = true)). Qed.

Lemma elem_of_unused_of referenced all_files f :
  f ∈ unused_of referenced all_files ↔ f ∈ all_files ∧ f ∉ referenced.
Proof. unfold unused_of. by rewrite list_elem_of_filter, (comm _ (_ ∉ _)). Qed.

Lemma elem_of_unused_files t md f :
  f ∈ unused_files t md →
  f ∈ entries t (asset_dir_of md) ∧ isfile t (Path.join (asset_dir_of md) f) = true.
Proof.
  unfold unused_files. destruct (text_of t md); [|by intros ?%elem_of_nil].
  destruct (listable t _); [|by intros ?%elem_of_nil].
  intros [Hf _]%elem_of_unused_of. by apply elem_of_all_files_of.
Qed.

(** What every run of a document has in common. *)
Lemma process_markdown_summary md dry_run yes w :
  ∃ w' r evs,
    process_markdown md dry_run yes w = (w', r)
    ∧ trace w' = trace w ++ evs
    ∧ reads evs = [md]
    ∧ unused_lines evs = unused_files (fs w) md
    ∧ (∀ fp ok, (fp, ok) ∈ removals evs →
         ∃ f, f ∈ unused_files (fs w) md ∧ fp = Path.join (asset_dir_of md) f)
    ∧ (∀ p, fs w' !! p = fs w !! p
            ∨ (fs w' !! p = None ∧ (∃ c, fs w !! p = Some (File c false))
               ∧ (p, true) ∈ removals evs))
    ∧ (removals evs = [] → fs w' = fs w)
    ∧ (r = inr (length (succeeded evs)) ∨ ∃ e, r = inl e ∧ removals evs = [])
    ∧ (dry_run = true →
         removals evs = [] ∧ prompts evs = [] ∧ stdin w' = stdin w
         ∧ (r = inr 0
            ∨ (text_of (fs w) md = None ∧ ∃ e, r = inl e)
            ∨ (unlistable (fs w) (asset_dir_of md) = true ∧ ∃ e, r = inl e)))
    ∧ (dry_run = false → yes = true →
         ∀ f, f ∈ unused_files (fs w) md →
              (Path.join (asset_dir_of md) f, false) ∉ removals evs →
              fs w' !! Path.join (asset_dir_of md) f = None).
Proof.
  destruct (process_markdown_cases md dry_run yes w)
    as [(evs & r & ins & -> & Hrm & Hrd & Hul & Hr & Hquiet & Hnone)
       |(-> & Hun & Hgo)].
  - eexists _, r, evs. split; [done|]. simpl. unfold succeeded. rewrite Hrm.
    split_and!; try done.
    + intros fp ok Hin. by apply elem_of_nil in Hin.
    + by left.
    + destruct Hr as [->|(e & -> & _)]; [by left|right; eauto].
    + intros ->. destruct Hquiet as [-> ->]; [by left|].
      split_and!; try done.
      destruct Hr as [->|(e & -> & [?|[?|(? & _)]])];
        [by left|right; left; eauto|right; right; eauto|done].
    + intros Hd Hy f Hf. rewrite (Hnone Hd Hy) in Hf. by apply elem_of_nil in Hf.
  - destruct (process_markdown_deletes md yes w Hun Hgo)
      as (w' & evs & -> & Htr & Hrd & Hul & Hpr & Hin & Hrm & Hfail & Hfs & Hgone).
    eexists w', _, evs. split; [done|]. split_and!; try done.
    + intros fp ok Hin'.
      assert (fp ∈ (removals evs).*1) as Hfp.
      { apply list_elem_of_fmap. by exists (fp, ok). }
      rewrite Hrm in Hfp. apply list_elem_of_fmap in Hfp as (f & -> & Hf). eauto.
    + intros Hnil. apply map_eq. intros p.
      destruct (Hfs p) as [?|(_ & _ & Hin')]; [done|].
      rewrite Hnil in Hin'. by apply elem_of_nil in Hin'.
    + by left.
Qed.

(** ** File discovery *)

Lemma elem_of_md_entries p names results x :
  x ∈ foldl (λ results name,
               if is_md name then results ++ [Path.join p name] else results)
            results names
  ↔ x ∈ results ∨ ∃ name, name ∈ names ∧ is_md name = true ∧ x = Path.join p name.
Proof.
  revert results. induction names as [|name names IH]; intros results; simpl.
  - split; [by left|]. intros [?|(? & []%elem_of_nil & _)]. done.
  - rewrite IH. destruct (is_md name) eqn:Hmd.
    + rewrite elem_of_app, list_elem_of_singleton. split.
      * intros [[?| ->]|(n & ? & ? & ->)]; [by left| |].
        -- right. exists name. split; [left|done].
        -- right. exists n. split; [by right|done].
      * intros [?|(n & [->|?]%elem_of_cons & ? & ->)]; [by left; left|by left; right|].
        right. by exists n.
    + split.
      * intros [?|(n & ? & ? & ->)]; [by left|].
        right. exists n. split; [by right|done].
      * intros [?|(n & [->|?]%elem_of_cons & ? & ->)]; [by left|congruence|].
        right. by exists n.
Qed.

(** Discovery either gets through all the inputs or stops at the first
    directory that cannot be listed. *)
Lemma find_markdown_files_loop_cases paths results w :
  ∃ evs r,
    find_markdown_files_loop paths results w = (logs evs w, r)
    ∧ removals evs = [] ∧ prompts evs = [] ∧ reads evs = []
    ∧ match refused (fs w) paths with
      | None =>
          ∃ mds,
            r = inr mds
            ∧ ∀ x, x ∈ mds
                   ↔ x ∈ results ∨ ∃ p, p ∈ paths ∧ discovered_from (fs w) p x
      | Some q => r = inl (PermissionError q)
      end.
Proof.
  revert results w. induction paths as [|p paths IH]; intros results w;
    cbn [refused find_markdown_files_loop].
  { exists [], (inr results). unfold logs. rewrite app_nil_r. destruct w.
    split_and!; try done. exists results.
    split; [done|]. intros x. split; [by left|].
    intros [?|(? & []%elem_of_nil & _)]. done. }
  unfold mbind at 1, M_bind at 1. rewrite os_path_isdir_run.
  destruct (isdir (fs w) p) eqn:Hdir.
  - unfold mbind at 1, M_bind at 1, os_listdir. unfold isdir in Hdir.
    unfold unlistable.
    destruct (fs w !! p) as [[|[|]]|] eqn:Hp; try done.
    { exists [], (inl (PermissionError p)). unfold logs. rewrite app_nil_r.
      by destruct w. }
    match goal with |- context [find_markdown_files_loop _ ?rs _] =>
      destruct (IH rs w) as (evs & r & -> & Hrm & Hpr & Hrd & Hrun)
    end.
    exists evs, r. split_and!; try done.
    destruct (refused (fs w) paths) as [q|]; [done|].
    destruct Hrun as (mds & -> & Hmds). exists mds. split; [done|].
    intros x. rewrite Hmds, elem_of_md_entries. unfold discovered_from, isdir.
    split.
    + intros [[?|(name & ? & ? & ->)]|(q & ? & ?)]; [by left| |].
      * right. exists p. split; [left|]. left. rewrite Hp. eauto 6.
      * right. exists q. split; [by right|done].
    + intros [?|(q & [->|?]%elem_of_cons & Hq)]; [by left; left| |].
      * rewrite Hp in Hq. destruct Hq as [(_ & Hq)|(? & _)]; [|done].
        left. by right.
      * right. eauto.
  - assert (unlistable (fs w) p = false) as ->.
    { unfold isdir in Hdir. unfold unlistable.
      by destruct (fs w !! p) as [[|[|]]|]. }
    unfold mbind at 1, M_bind at 1. rewrite os_path_isfile_run.
    destruct (isfile (fs w) p && is_md p) eqn:Hf.
    + destruct (IH (results ++ [p]) w) as (evs & r & -> & Hrm & Hpr & Hrd & Hrun).
      exists evs, r. split_and!; try done.
      destruct (refused (fs w) paths) as [q|]; [done|].
      destruct Hrun as (mds & -> & Hmds). exists mds. split; [done|].
      intros x.
      rewrite Hmds, elem_of_app, list_elem_of_singleton.
      apply andb_true_iff in Hf as [Hf Hmd]. unfold discovered_from. split.
      * intros [[?| ->]|(q & ? & ?)]; [by left| |].
        -- right. exists p. split; [left|]. by right.
        -- right. exists q. split; [by right|done].
      * intros [?|(q & [->|?]%elem_of_cons & Hq)]; [by left; left| |].
        -- destruct Hq as [(? & _)|(_ & _ & _ & ->)]; [congruence|].
           by left; right.
        -- right. eauto.
    + erewrite bind_run by apply print_run.
      destruct (IH results (logs [EvPrint (MsgIgnoring p)] w))
        as (evs & r & -> & Hrm & Hpr & Hrd & Hrun).
      rewrite fs_logs in Hrun. rewrite logs_logs.
      eexists _, r. split; [done|].
      rewrite removals_app, prompts_app, reads_app, Hrm, Hpr, Hrd.
      split_and!; try done.
      destruct (refused (fs w) paths) as [q|]; [done|].
      destruct Hrun as (mds & -> & Hmds). exists mds. split; [done|].
      intros x. rewrite Hmds.
      unfold discovered_from. split.
      * intros [?|(q & ? & ?)]; [by left|].
        right. exists q. split; [by right|done].
      * intros [?|(q & [->|?]%elem_of_cons & Hq)]; [by left| |].
        -- destruct Hq as [(? & _)|(_ & Hq1 & Hq2 & _)]; [congruence|].
           rewrite Hq1, Hq2 in Hf. done.
        -- right. eauto.
Qed.

Lemma find_markdown_files_loop_spec paths results w :
  refused (fs w) paths = None →
  ∃ evs mds,
    find_markdown_files_loop paths results w = (logs evs w, inr mds)
    ∧ removals evs = [] ∧ prompts evs = [] ∧ reads evs = []
    ∧ ∀ x, x ∈ mds ↔ x ∈ results ∨ ∃ p, p ∈ paths ∧ discovered_from (fs w) p x.
Proof.
  intros Href.
  destruct (find_markdown_files_loop_cases paths results w)
    as (evs & r & Hrun & Hrm & Hpr & Hrd & Hr).
  rewrite Href in Hr. destruct Hr as (mds & -> & Hmds).
  by exists evs, mds.
Qed.

Lemma find_markdown_files_spec paths w :
  refused (fs w) paths = None →
  ∃ evs mds,
    find_markdown_files paths w = (logs evs w, inr mds)
    ∧ removals evs = [] ∧ prompts evs = [] ∧ reads evs = []
    ∧ ∀ x, x ∈ mds ↔ ∃ p, p ∈ paths ∧ discovered_from (fs w) p x.
Proof.
  intros Href.
  destruct (find_markdown_files_loop_spec paths [] w Href)
    as (evs & mds & Hrun & Hrm & Hpr & Hrd & Hmds).
  exists evs, (Str.sorted mds). unfold find_markdown_files.
  erewrite bind_run by exact Hrun. split_and!; try done.
  intros x. unfold Str.sorted. rewrite merge_sort_Permutation, Hmds.
  split; [|by right]. intros [[]%elem_of_nil|?]. done.
Qed.

(** Where an input directory cannot be listed, discovery raises the
    [PermissionError] of the first such input. *)
Lemma find_markdown_files_refused paths w q :
  refused (fs w) paths = Some q →
  ∃ evs,
    find_markdown_files paths w = (logs evs w, inl (PermissionError q))
    ∧ removals evs = [] ∧ prompts evs = [] ∧ reads evs = [].
Proof.
  intros Href.
  destruct (find_markdown_files_loop_cases paths [] w)
    as (evs & r & Hrun & Hrm & Hpr & Hrd & Hr).
  rewrite Href in Hr. subst r. exists evs. unfold find_markdown_files.
  unfold mbind, M_bind. by rewrite Hrun.
Qed.

(** ** The run *)

Lemma removed_by_trans rs1 rs2 t t1 t2 :
  removed_by rs1 t t1 → removed_by rs2 t1 t2 → removed_by (rs1 ++ rs2) t t2.
Proof.
  intros H1 H2 p. destruct (H2 p) as [->|(-> & [c Hc] & Hin)].
  - destruct (H1 p) as [->|(-> & ? & ?)]; [by left|].
    right. split_and!; [done..|]. apply elem_of_app. by left.
  - right. split; [done|]. destruct (H1 p) as [<-|[? _]]; [|congruence].
    split; [eauto|]. apply elem_of_app. by right.
Qed.

Lemma removed_by_nil t t' : removed_by [] t t' → t' = t.
Proof.
  intros H. apply map_eq. intros p.
  destruct (H p) as [?|(_ & _ & []%elem_of_nil)]. done.
Qed.


Lemma succeeded_app evs1 evs2 :
  succeeded (evs1 ++ evs2) = succeeded evs1 ++ succeeded evs2.
Proof. unfold succeeded. by rewrite removals_app, filter_app. Qed.

Lemma entry_of_unused_file t md f :
  f ∈ unused_files t md → f ≠ [] ∧ (Path.sep ∉ f).
Proof.
  intros [Hf _]%elem_of_unused_files. apply elem_of_entries in Hf. tauto.
Qed.

(** *** Files only go away *)








Lemma elem_of_unused_files_iff t md f :
  f ∈ unused_files t md
  ↔ ∃ text, text_of t md = Some text
            ∧ listable t (asset_dir_of md) = true
            ∧ f ∈ all_files_of t (asset_dir_of md)
            ∧ f ∉ extract_image_paths Path.Posix text.
Proof.
  unfold unused_files. destruct (text_of t md) as [text|].
  - destruct (listable t (asset_dir_of md)).
    + rewrite elem_of_unused_of. split; [by eauto|].
      by intros (? & [= <-] & _ & ? & ?).
    + split; [by intros ?%elem_of_nil|]. by intros (? & _ & ? & _).
  - split; [by intros ?%elem_of_nil|]. by intros (? & ? & _).
Qed.




Lemma main_loop_spec md_files dry_run yes total w :
  ∃ w' evs,
    main_loop md_files dry_run yes total w
    = (w', inr (total + length (succeeded evs)))
    ∧ trace w' = trace w ++ evs
    ∧ reads evs = md_files
    ∧ (∀ fp ok, (fp, ok) ∈ removals evs →
         ∃ md f, md ∈ md_files ∧ f ≠ [] ∧ (Path.sep ∉ f)
                 ∧ fp = Path.join (asset_dir_of md) f)
    ∧ removed_by (removals evs) (fs w) (fs w')
    ∧ (dry_run = true →
         removals evs = [] ∧ prompts evs = [] ∧ stdin w' = stdin w).
Proof.
  revert total w. induction md_files as [|md mds IH]; intros total w; simpl.
  { exists w, []. rewrite app_nil_r, Nat.add_0_r. split_and!; try done.
    - intros fp ok []%elem_of_nil.
    - by left. }
  destruct (process_markdown_summary md dry_run yes w)
    as (w1 & r & evs1 & Hrun & Htr1 & Hrd1 & _ & Hin1 & Hfs1 & _ & Hr & Hdry1 & _).
  unfold mbind at 1, M_bind at 1, try_except.
  unfold mbind at 1, M_bind at 1. rewrite Hrun.
  destruct Hr as [->|(e & -> & Hrm1)]; simpl.
  - destruct (IH (total + length (succeeded evs1)) w1)
      as (w' & evs2 & -> & Htr2 & Hrd2 & Hin2 & Hfs2 & Hdry2).
    exists w', (evs1 ++ evs2).
    rewrite succeeded_app, length_app, removals_app, reads_app, prompts_app,
      Hrd1, Hrd2, Htr2, Htr1, <- app_assoc.
    split_and!; try done.
    + do 2 f_equal. lia.
    + intros fp ok [Hfp|Hfp]%elem_of_app.
      * destruct (Hin1 fp ok Hfp) as (f & Hf & ->).
        destruct (entry_of_unused_file _ _ _ Hf).
        exists md, f. split_and!; try done. by left.
      * destruct (Hin2 fp ok Hfp) as (md' & f & ? & ? & ? & ->).
        exists md', f. split_and!; try done. by right.
    + by apply removed_by_trans with (fs w1).
    + intros Hd. destruct (Hdry1 Hd) as (-> & -> & <- & _).
      destruct (Hdry2 Hd) as (-> & -> & ->). done.
  - change (log ?e ?w0) with (logs [e] w0).
    destruct (IH total (logs [EvPrint (MsgError md e)] w1))
      as (w' & evs2 & -> & Htr2 & Hrd2 & Hin2 & Hfs2 & Hdry2).
    exists w', (evs1 ++ [EvPrint (MsgError md e)] ++ evs2).
    rewrite !succeeded_app, !length_app, !removals_app, !reads_app, !prompts_app,
      Hrd1, Hrd2, Htr2, trace_logs, Htr1, <- !app_assoc.
    assert (succeeded evs1 = []) as -> by (unfold succeeded; by rewrite Hrm1).
    rewrite Hrm1. split_and!; try done.
    + intros fp ok Hfp. simpl in Hfp.
      destruct (Hin2 fp ok Hfp) as (md' & f & ? & ? & ? & ->).
      exists md', f. split_and!; try done. by right.
    + rewrite Hrm1 in Hfs1. rewrite fs_logs in Hfs2.
      exact (removed_by_trans [] _ _ _ _ Hfs1 Hfs2).
    + intros Hd. destruct (Hdry1 Hd) as (_ & -> & <- & _).
      destruct (Hdry2 Hd) as (-> & -> & ->). done.
Qed.

Lemma main_spec paths dry_run yes w :
  refused (fs w) paths = None →
  ∃ evs0 mds w' evs,
    find_markdown_files paths w = (logs evs0 w, inr mds)
    ∧ main paths dry_run yes w
      = (w', inr (if bool_decide (mds = []) then 1 else 0)%Z)
    ∧ trace w' = trace w ++ evs
    ∧ reads evs = mds
    ∧ (∀ fp ok, (fp, ok) ∈ removals evs →
         ∃ md f, md ∈ mds ∧ f ≠ [] ∧ (Path.sep ∉ f)
                 ∧ fp = Path.join (asset_dir_of md) f)
    ∧ removed_by (removals evs) (fs w) (fs w')
    ∧ (dry_run = true →
         removals evs = [] ∧ prompts evs = [] ∧ stdin w' = stdin w)
    ∧ (mds ≠ [] → last evs = Some (EvPrint (MsgFinished (length (succeeded evs))))).
Proof.
  intros Href.
  destruct (find_markdown_files_spec paths w Href)
    as (evs0 & mds & Hfind & Hrm0 & Hpr0 & Hrd0 & _).
  exists evs0, mds. unfold main. erewrite bind_run by exact Hfind.
  case_bool_decide as Hmds.
  - erewrite bind_run by apply print_run. rewrite logs_logs.
    eexists _, _. split; [done|]. split; [done|].
    rewrite trace_logs, removals_app, reads_app, prompts_app, Hrm0, Hrd0, Hpr0.
    split_and!; try done.
    + intros fp ok []%elem_of_nil.
    + by left.
  - destruct (main_loop_spec mds dry_run yes 0 (logs evs0 w))
      as (w' & evs & Hloop & Htr & Hrd & Hin & Hfs & Hdry).
    erewrite bind_run by exact Hloop.
    erewrite bind_run by apply print_run.
    exists (logs [EvPrint (MsgFinished (length (succeeded evs)))] w'),
      (evs0 ++ evs ++ [EvPrint (MsgFinished (length (succeeded evs)))]).
    split; [done|]. split; [done|].
    assert (∀ X, succeeded (evs0 ++ evs ++ [EvPrint X]) = succeeded evs) as Hsucc.
    { intros X. rewrite !succeeded_app. unfold succeeded at 1 3.
      rewrite Hrm0. simpl. by rewrite app_nil_r. }
    rewrite !removals_app, !reads_app, !prompts_app, Hrm0, Hrd0, Hpr0, Hrd, Hsucc.
    rewrite !trace_logs, Htr, trace_logs, <- !app_assoc. simpl.
    rewrite !app_nil_r.
    split_and!; try done.
    intros _. by rewrite !app_assoc, last_snoc.
Qed.

Lemma refused_Some t paths q :
  refused t paths = Some q → q ∈ paths ∧ unlistable t q = true.
Proof.
  induction paths as [|p paths IH]; [done|]. cbn [refused].
  destruct (unlistable t p) eqn:Hp.
  - intros [= <-]. split; [left|done].
  - intros [? ?]%IH. split; [by right|done].
Qed.

Lemma refused_None t paths :
  refused t paths = None ↔ ∀ p, p ∈ paths → unlistable t p = false.
Proof.
  induction paths as [|p paths IH]; cbn [refused].
  { split; [|done]. by intros _ p ?%elem_of_nil. }
  destruct (unlistable t p) eqn:Hp.
  - split; [done|]. intros H. rewrite H in Hp by left. done.
  - rewrite IH. split.
    + intros H q [->|?]%elem_of_cons; [done|by apply H].
    + intros H q Hq. apply H. by right.
Qed.

(** Where an input directory cannot be listed, the exception of discovery
    leaves [main] before any document is opened. *)
Lemma main_refused paths dry_run yes w q :
  refused (fs w) paths = Some q →
  ∃ evs,
    main paths dry_run yes w = (logs evs w, inl (PermissionError q))
    ∧ find_markdown_files paths w = (logs evs w, inl (PermissionError q))
    ∧ removals evs = [] ∧ prompts evs = [] ∧ reads evs = [].
Proof.
  intros Href.
  destruct (find_markdown_files_refused _ _ _ Href) as (evs & Hrun & ?).
  exists evs. split; [|done]. unfold main, mbind, M_bind. by rewrite Hrun.
Qed.


Lemma asset_dir_prefix md :
  dir_prefix (asset_dir_of md) = asset_dir_of md ++ [Path.sep].
Proof.
  unfold dir_prefix, asset_dir_of, Str.endswith.
  destruct (Path.splitext md) as [base ext]. by rewrite reverse_app.
Qed.

Lemma join_asset_dir md f :
  Path.sep ∉ f → Path.join (asset_dir_of md) f = asset_dir_of md ++ "/" ++ f.
Proof.
  intros Hf. rewrite join_child by (done || apply asset_dir_of_nonempty).
  by rewrite asset_dir_prefix, <- app_assoc.
Qed.

(** What every run has in common, whether it returns or ends in the
    exception of discovery. *)
Lemma main_outcome paths dry_run yes w :
  ∃ w' r evs,
    main paths dry_run yes w = (w', r)
    ∧ trace w' = trace w ++ evs
    ∧ (∀ fp ok, (fp, ok) ∈ removals evs →
         ∃ mds md f,
           (find_markdown_files paths w).2 = inr mds
           ∧ md ∈ mds ∧ f ≠ [] ∧ (Path.sep ∉ f)
           ∧ fp = Path.join (asset_dir_of md) f)
    ∧ removed_by (removals evs) (fs w) (fs w')
    ∧ (dry_run = true →
         removals evs = [] ∧ prompts evs = [] ∧ stdin w' = stdin w).
Proof.
  destruct (refused (fs w) paths) as [q|] eqn:Href.
  - destruct (main_refused paths dry_run yes w q Href)
      as (evs & Hmain & _ & Hrm & Hpr & _).
    eexists _, _, evs. split; [exact Hmain|]. rewrite Hrm.
    split_and!; try done.
    + intros fp ok []%elem_of_nil.
    + intros p. by left.
  - destruct (main_spec paths dry_run yes w Href)
      as (evs0 & mds & w' & evs & Hfind & Hmain & Htr & _ & Hin & Hfs & Hdry & _).
    eexists w', _, evs. split; [exact Hmain|]. rewrite Hfind.
    split_and!; try done.
    intros fp ok Hfp. destruct (Hin fp ok Hfp) as (md & f & ?).
    by exists mds, md, f.
Qed.

(** C3.  A dry run removes nothing and returns zero for every document it
    could read and whose asset folder, if there is one, it could list,
    however many unused files it found; otherwise it raises, and removes
    nothing either.  The listing of the asset folder and the whole file
    system are the same before and after, for one document and for the
    whole run, however the run ends. *)
Theorem dry_run_changes_nothing :
  (∀ md yes w,
     ∃ w' r evs,
       process_markdown md true yes w = (w', r)
       ∧ trace w' = trace w ++ evs
       ∧ removals evs = []
       ∧ fs w' = fs w
       ∧ entries (fs w') (asset_dir_of md) = entries (fs w) (asset_dir_of md)
       ∧ (r = inr 0
          ∨ (text_of (fs w) md = None ∧ ∃ e, r = inl e)
          ∨ (unlistable (fs w) (asset_dir_of md) = true ∧ ∃ e, r = inl e)))
  ∧ (∀ paths yes w,
       ∃ w' r evs,
         main paths true yes w = (w', r)
         ∧ trace w' = trace w ++ evs
         ∧ removals evs = []
         ∧ fs w' = fs w).
Proof.
  split.
  - intros md yes w.
    destruct (process_markdown_summary md true yes w)
      as (w' & r & evs & Hrun & Htr & _ & _ & _ & _ & Hsame & _ & Hdry & _).
    destruct (Hdry eq_refl) as (Hrm & _ & _ & Hr).
    exists w', r, evs. rewrite (Hsame Hrm). done.
  - intros paths yes w.
    destruct (main_outcome paths true yes w)
      as (w' & r & evs & Hmain & Htr & _ & Hfs & Hdry).
    destruct (Hdry eq_refl) as (Hrm & _).
    exists w', r, evs. split; [exact Hmain|]. split_and!; try done.
    rewrite Hrm in Hfs. by apply removed_by_nil.
Qed.

(** C2.  A document's run changes the file system only by removing
    regular files that are entries of the asset folder computed for that
    document; a whole run only by removing such files for the documents it
    discovered.  So no directory is removed, the asset folder included, and
    no path gains a node or a different one. *)
Theorem removes_only_files_of_the_asset_dir :
  (∀ md dry_run yes w,
     ∃ w' r,
       process_markdown md dry_run yes w = (w', r)
       ∧ (∀ p, fs w' !! p = fs w !! p
               ∨ (fs w' !! p = None
                  ∧ (∃ c l, fs w !! p = Some (File c l))
                  ∧ ∃ f, f ∈ entries (fs w) (asset_dir_of md)
                         ∧ p = asset_dir_of md ++ "/" ++ f))
       ∧ (∀ p s, fs w !! p = Some (Dir s) → fs w' !! p = Some (Dir s))
       ∧ (∀ p n, fs w' !! p = Some n → fs w !! p = Some n))
  ∧ (∀ paths dry_run yes w,
       ∃ w' r,
         main paths dry_run yes w = (w', r)
         ∧ (∀ p, fs w' !! p = fs w !! p
                 ∨ (fs w' !! p = None
                    ∧ (∃ c l, fs w !! p = Some (File c l))
                    ∧ ∃ mds md f,
                        (find_markdown_files paths w).2 = inr mds
                        ∧ md ∈ mds ∧ f ≠ [] ∧ ("/"%char ∉ f)
                        ∧ p = asset_dir_of md ++ "/" ++ f))
         ∧ (∀ p s, fs w !! p = Some (Dir s) → fs w' !! p = Some (Dir s))
         ∧ (∀ p n, fs w' !! p = Some n → fs w !! p = Some n)).
Proof.
  split.
  - intros md dry_run yes w.
    destruct (process_markdown_summary md dry_run yes w)
      as (w' & r & evs & Hrun & _ & _ & _ & Hin & Hfs & _).
    exists w', r. split; [done|].
    assert (∀ p, fs w' !! p = fs w !! p
               ∨ (fs w' !! p = None
                  ∧ (∃ c l, fs w !! p = Some (File c l))
                  ∧ ∃ f, f ∈ entries (fs w) (asset_dir_of md)
                         ∧ p = asset_dir_of md ++ "/" ++ f)) as Hp.
    { intros p. destruct (Hfs p) as [?|(? & [c ?] & Hrm)]; [by left|].
      right. split_and!; [done|eauto|].
      destruct (Hin _ _ Hrm) as (f & Hf & ->).
      destruct (entry_of_unused_file _ _ _ Hf) as [_ Hsep].
      apply elem_of_unused_files in Hf as [Hf _].
      exists f. by rewrite join_asset_dir. }
    split_and!; [done| |].
    + intros p s Hd. destruct (Hp p) as [->|(_ & (c & l & ?) & _)]; congruence.
    + intros p n Hn. destruct (Hp p) as [<-|(? & _)]; congruence.
  - intros paths dry_run yes w.
    destruct (main_outcome paths dry_run yes w)
      as (w' & r & evs & Hmain & _ & Hin & Hfs & _).
    exists w', r. split; [exact Hmain|].
    assert (∀ p, fs w' !! p = fs w !! p
               ∨ (fs w' !! p = None
                  ∧ (∃ c l, fs w !! p = Some (File c l))
                  ∧ ∃ mds md f,
                      (find_markdown_files paths w).2 = inr mds
                      ∧ md ∈ mds ∧ f ≠ [] ∧ ("/"%char ∉ f)
                      ∧ p = asset_dir_of md ++ "/" ++ f)) as Hp.
    { intros p. destruct (Hfs p) as [?|(? & [c ?] & Hrm)]; [by left|].
      right. split_and!; [done|eauto|].
      destruct (Hin _ _ Hrm) as (mds & md & f & ? & ? & ? & ? & ->).
      exists mds, md, f. by rewrite join_asset_dir. }
    split_and!; [done| |].
    + intros p s Hd. destruct (Hp p) as [->|(_ & (c & l & ?) & _)]; congruence.
    + intros p n Hn. destruct (Hp p) as [<-|(? & _)]; congruence.
Qed.

(** *** Running twice *)

Lemma main_loop_step md mds dry_run yes total w :
  main_loop (md :: mds) dry_run yes total w
  = match process_markdown md dry_run yes w with
    | (w1, inr deleted) => main_loop mds dry_run yes (total + deleted) w1
    | (w1, inl e) =>
        main_loop mds dry_run yes total (logs [EvPrint (MsgError md e)] w1)
    end.
Proof.
  simpl. unfold mbind at 1, M_bind at 1, try_except.
  unfold mbind at 1, M_bind at 1.
  by destruct (process_markdown md dry_run yes w) as [w1 [e|n]].
Qed.





Lemma main_run paths dry_run yes w :
  main paths dry_run yes w
  = match find_markdown_files paths w with
    | (w0, inr mds) =>
        if bool_decide (mds = []) then
          (logs [EvPrint MsgNoMarkdown] w0, inr 1%Z)
        else
          match main_loop mds dry_run yes 0 w0 with
          | (w', inr total) => (logs [EvPrint (MsgFinished total)] w', inr 0%Z)
          | (w', inl e) => (w', inl e)
          end
    | (w0, inl e) => (w0, inl e)
    end.
Proof.
  unfold main. unfold mbind at 1, M_bind at 1.
  destruct (find_markdown_files paths w) as [w0 [e|mds]]; [done|].
  case_bool_decide; [done|].
  unfold mbind at 1, M_bind at 1.
  by destruct (main_loop mds dry_run yes 0 w0) as [w' [e|total]].
Qed.


(** ** The claims about one document, continued *)

Lemma elem_of_all_files_of_asset_dir t md f :
  f ∈ all_files_of t (asset_dir_of md)
  ↔ isfile t (asset_dir_of md ++ "/" ++ f) = true ∧ f ≠ [] ∧ ("/"%char ∉ f).
Proof.
  rewrite elem_of_all_files_of, elem_of_entries, asset_dir_prefix. split.
  - intros ((_ & ? & Hsep) & Hfile). by rewrite join_asset_dir in Hfile.
  - intros (Hfile & ? & Hsep). rewrite join_asset_dir by done.
    split_and!; try done. rewrite <- app_assoc. unfold isfile in Hfile.
    simpl in *. destruct (t !! _); [eauto|done].
Qed.

(** C1.  For a readable document with an asset folder that can be
    listed, the list printed
    under the heading of unused files is the list of the regular files
    directly inside the folder, filtered by absence from the extracted
    reference set; membership is equality of strings.  So a name that one
    of the four scans produces is never in it, every removal is of a file
    in it, and [Img.png] in the text does not keep [img.png] on disk. *)
Theorem unused_is_listing_minus_references md dry_run yes w text :
  text_of (fs w) md = Some text →
  listable (fs w) (asset_dir_of md) = true →
  let referenced := extract_image_paths Path.Posix text in
  let on_disk := all_files_of (fs w) (asset_dir_of md) in
  ∃ w' r evs,
    process_markdown md dry_run yes w = (w', r)
    ∧ trace w' = trace w ++ evs
    ∧ unused_lines evs = unused_of referenced on_disk
    ∧ (∀ f, f ∈ on_disk
            ↔ isfile (fs w) (asset_dir_of md ++ "/" ++ f) = true
              ∧ f ≠ [] ∧ ("/"%char ∉ f))
    ∧ (∀ f, f ∈ unused_lines evs ↔ f ∈ on_disk ∧ f ∉ referenced)
    ∧ (∀ x, scanned Path.Posix text x → x ∉ unused_lines evs)
    ∧ (∀ fp ok, (fp, ok) ∈ removals evs →
         ∃ f, f ∈ unused_lines evs ∧ fp = asset_dir_of md ++ "/" ++ f)
    ∧ (("Img.png" : str) ∈ extract_image_paths Path.Posix "![x](a.assets/Img.png)"
       ∧ unused_of (extract_image_paths Path.Posix "![x](a.assets/Img.png)")
                   [("img.png" : str)] = [("img.png" : str)]).
Proof.
  intros Ht Hdir referenced on_disk.
  destruct (process_markdown_summary md dry_run yes w)
    as (w' & r & evs & Hrun & Htr & _ & Hul & Hin & _).
  rewrite (unused_files_readable _ _ _ Ht Hdir) in Hul, Hin.
  fold referenced on_disk in Hul, Hin.
  exists w', r, evs. rewrite Hul.
  split_and!; try done.
  - intros f. apply elem_of_all_files_of_asset_dir.
  - intros f. apply elem_of_unused_of.
  - intros x Hx [Hdisk Hnot]%elem_of_unused_of. apply Hnot.
    apply elem_of_extract_image_paths. split; [done|].
    apply elem_of_all_files_of_asset_dir in Hdisk. tauto.
  - intros fp ok Hfp. destruct (Hin fp ok Hfp) as (f & Hf & ->).
    exists f. split; [done|]. apply join_asset_dir.
    apply elem_of_unused_of in Hf as [Hf _].
    apply elem_of_all_files_of_asset_dir in Hf. tauto.
Qed.

Lemma unused_is_listing_minus_references_witness :
  ∃ w' r evs,
    process_markdown "a.md" false true (World case_fs [] []) = (w', r)
    ∧ trace w' = [] ++ evs
    ∧ unused_lines evs
      = unused_of (extract_image_paths Path.Posix "![x](a.assets/Img.png)")
                  (all_files_of case_fs (asset_dir_of "a.md"))
    ∧ (∀ f, f ∈ all_files_of case_fs (asset_dir_of "a.md")
            ↔ isfile case_fs (asset_dir_of "a.md" ++ "/" ++ f) = true
              ∧ f ≠ [] ∧ ("/"%char ∉ f))
    ∧ (∀ f, f ∈ unused_lines evs
            ↔ f ∈ all_files_of case_fs (asset_dir_of "a.md")
              ∧ f ∉ extract_image_paths Path.Posix "![x](a.assets/Img.png)")
    ∧ (∀ x, scanned Path.Posix "![x](a.assets/Img.png)" x → x ∉ unused_lines evs)
    ∧ (∀ fp ok, (fp, ok) ∈ removals evs →
         ∃ f, f ∈ unused_lines evs ∧ fp = asset_dir_of "a.md" ++ "/" ++ f)
    ∧ (("Img.png" : str) ∈ extract_image_paths Path.Posix "![x](a.assets/Img.png)"
       ∧ unused_of (extract_image_paths Path.Posix "![x](a.assets/Img.png)")
                   [("img.png" : str)] = [("img.png" : str)]).
Proof.
  apply (unused_is_listing_minus_references "a.md" false true
           (World case_fs [] []) "![x](a.assets/Img.png)");
    by_computation.
Defined.

(** C5 (amended).  In interactive mode with a non-empty unused list the
    operator is asked once, and the deletion proceeds if and only if the
    answer, with surrounding white space removed and in lower case, is [y]
    or [yes]; any other answer ends the document with nothing removed and
    zero returned. *)
Theorem confirmation_decides_after_strip md w ans rest :
  unused_files (fs w) md ≠ [] →
  stdin w = ans :: rest →
  ∃ w' r evs,
    process_markdown md false false w = (w', r)
    ∧ trace w' = trace w ++ evs
    ∧ prompts evs = [Some ans]
    ∧ stdin w' = rest
    ∧ (removals evs ≠ []
       ↔ Str.lower (Str.strip ans) ∈ [("y" : str); ("yes" : str)])
    ∧ (Str.lower (Str.strip ans) ∈ [("y" : str); ("yes" : str)] →
         (removals evs).*1
         = Path.join (asset_dir_of md) <$> unused_files (fs w) md
         ∧ r = inr (length (succeeded evs)))
    ∧ (Str.lower (Str.strip ans) ∉ [("y" : str); ("yes" : str)] →
         removals evs = [] ∧ fs w' = fs w ∧ r = inr 0
         ∧ last evs = Some (EvPrint MsgAborted)).
Proof.
  intros Hun Hin. fold (affirmative ans).
  destruct (decide (affirmative ans)) as [Hyes|Hno].
  - assert (confirmed false w) as Hgo by (right; eauto).
    destruct (process_markdown_deletes md false w Hun Hgo)
      as (w' & evs & Hrun & Htr & _ & _ & Hpr & Hin' & Hrm & _).
    rewrite Hin in Hpr, Hin'. eexists w', _, evs.
    split; [exact Hrun|]. split_and!; try done.
    split; [done|]. intros _ Hnil. rewrite Hnil in Hrm.
    destruct (unused_files (fs w) md); done.
  - destruct (process_markdown_declined md w ans rest Hun Hin Hno)
      as (evs & Hrun & Hrm & _ & _ & Hpr & Hlast).
    eexists _, _, evs. split; [exact Hrun|]. by split_and!.
Qed.

Lemma confirmation_decides_after_strip_witness :
  ∃ w' r evs,
    process_markdown "a.md" false false (demo [(" Yes " : str)]) = (w', r)
    ∧ trace w' = [] ++ evs
    ∧ prompts evs = [Some (" Yes " : str)]
    ∧ stdin w' = []
    ∧ (removals evs ≠ []
       ↔ Str.lower (Str.strip " Yes ") ∈ [("y" : str); ("yes" : str)])
    ∧ (Str.lower (Str.strip " Yes ") ∈ [("y" : str); ("yes" : str)] →
         (removals evs).*1
         = Path.join (asset_dir_of "a.md") <$> unused_files demo_fs "a.md"
         ∧ r = inr (length (succeeded evs)))
    ∧ (Str.lower (Str.strip " Yes ") ∉ [("y" : str); ("yes" : str)] →
         removals evs = [] ∧ fs w' = demo_fs ∧ r = inr 0
         ∧ last evs = Some (EvPrint MsgAborted)).
Proof.
  apply (confirmation_decides_after_strip "a.md" (demo [(" Yes " : str)])
           " Yes " []); by_computation.
Defined.

(** C5 as stated fails: the answer [ y], with a leading blank, is neither
    [y] nor [yes] in any case, and the deletion proceeds all the same. *)
Lemma confirmation_accepts_padded_answer :
  (Str.lower " y" ∉ [("y" : str); ("yes" : str)])
  ∧ (process_markdown "a.md" false false (World case_fs [(" y" : str)] [])).2
    = inr 1
  ∧ removals (trace (process_markdown "a.md" false false
                       (World case_fs [(" y" : str)] [])).1)
    = [(("a.assets/img.png" : str), true)].
Proof.
  split; [|split; by_computation].
  apply (bool_decide_unpack _). by_computation.
Qed.

(** ** The claims about the run, continued *)

Lemma find_markdown_files_direct p w :
  isdir (fs w) p = false →
  (find_markdown_files [p] w).2
  = inr (if isfile (fs w) p && is_md p then [p] else []).
Proof.
  intros Hdir. unfold find_markdown_files. simpl.
  unfold mbind at 1 2, M_bind at 1 2. rewrite os_path_isdir_run, Hdir.
  unfold mbind at 1, M_bind at 1. rewrite os_path_isfile_run.
  by destruct (isfile (fs w) p && is_md p).
Qed.

(** C10.  Discovery returns, for an input that is a directory, every
    entry whose name ends in [.md] in any case, whatever kind of node the
    entry is; only an input that is not a directory has to be a regular
    file.  A subdirectory [notes.md] of an input directory is in the
    result.  (Discovery returns unless an input directory cannot be
    listed; then it raises.) *)
Theorem discovery_does_not_check_directory_entries paths w :
  (∃ evs r,
     find_markdown_files paths w = (logs evs w, r)
     ∧ match refused (fs w) paths with
       | None =>
           ∃ mds,
             r = inr mds
             ∧ (∀ x, x ∈ mds ↔ ∃ p, p ∈ paths ∧ discovered_from (fs w) p x)
             ∧ (∀ p name,
                  p ∈ paths → isdir (fs w) p = true →
                  name ∈ entries (fs w) p →
                  Str.endswith (Str.lower name) ".md" = true →
                  Path.join p name ∈ mds)
       | Some q => r = inl (PermissionError q)
       end)
  ∧ (∀ p, isdir (fs w) p = false →
          (find_markdown_files [p] w).2
          = inr (if isfile (fs w) p && Str.endswith (Str.lower p) ".md"
                 then [p] else []))
  ∧ (docs_fs !! ("docs/notes.md" : str) = Some (Dir false)
     ∧ (find_markdown_files [("docs" : str)] (World docs_fs [] [])).2
       = inr [("docs/notes.md" : str); ("docs/readme.MD" : str)]).
Proof.
  split_and!; try done.
  - destruct (refused (fs w) paths) as [q|] eqn:Href.
    + destruct (find_markdown_files_refused paths w q Href) as (evs & Hrun & _).
      by exists evs, (inl (PermissionError q)).
    + destruct (find_markdown_files_spec paths w Href)
        as (evs & mds & Hrun & _ & _ & _ & Hmds).
      exists evs, (inr mds). split; [done|]. exists mds. split_and!; try done.
      intros p name Hp Hdir Hname Hmd. apply Hmds. exists p. split; [done|].
      left. split; [done|]. by exists name.
  - intros p. apply find_markdown_files_direct.
Qed.

Lemma discovery_does_not_check_directory_entries_witness :
  (∃ evs r,
     find_markdown_files [("docs" : str); ("docs/todo.txt" : str)]
       (World docs_fs [] [])
     = (logs evs (World docs_fs [] []), r)
     ∧ ∃ mds,
         r = inr mds
         ∧ (∀ x, x ∈ mds
                 ↔ ∃ p, p ∈ [("docs" : str); ("docs/todo.txt" : str)]
                        ∧ discovered_from docs_fs p x)
         ∧ (∀ p name,
              p ∈ [("docs" : str); ("docs/todo.txt" : str)] →
              isdir docs_fs p = true → name ∈ entries docs_fs p →
              Str.endswith (Str.lower name) ".md" = true →
              Path.join p name ∈ mds))
  ∧ (∀ p, isdir docs_fs p = false →
          (find_markdown_files [p] (World docs_fs [] [])).2
          = inr (if isfile docs_fs p && Str.endswith (Str.lower p) ".md"
                 then [p] else []))
  ∧ (docs_fs !! ("docs/notes.md" : str) = Some (Dir false)
     ∧ (find_markdown_files [("docs" : str)] (World docs_fs [] [])).2
       = inr [("docs/notes.md" : str); ("docs/readme.MD" : str)]).
Proof.
  exact (discovery_does_not_check_directory_entries
           [("docs" : str); ("docs/todo.txt" : str)] (World docs_fs [] [])).
Defined.



(** A run in which the first document cannot be read: the error is
    printed, the next document is processed, and the exit code is 0. *)
Example run_survives_unreadable_document :
  (main [("docs" : str)] false true (World docs_fs [] [])).2 = inr 0%Z
  ∧ printed (trace (main [("docs" : str)] false true (World docs_fs [] [])).1)
    = [MsgError "docs/notes.md" (IsADirectoryError "docs/notes.md");
       MsgAssetDir "docs/readme.assets";
       MsgReferenced 1 [("logo.png" : str)];
       MsgUnused 1;
       MsgUnusedFile "old.png";
       MsgDeleted "docs/readme.assets/old.png";
       MsgFinished 1].
Proof. split; by_computation. Qed.

(** A run over a document whose asset folder cannot be listed: the
    [PermissionError] of line 95 is caught like any other, and the exit
    code is 0. *)
Example run_survives_unlistable_asset_dir :
  (main [("c.md" : str)] false true (World vault_fs [] [])).2 = inr 0%Z
  ∧ printed (trace (main [("c.md" : str)] false true (World vault_fs [] [])).1)
    = [MsgError "c.md" (PermissionError "c.assets"); MsgFinished 0].
Proof. split; by_computation. Qed.

(** The exit code with nothing to process. *)
Example run_without_markdown_files :
  (main [("docs/todo.txt" : str)] false true (World docs_fs [] [])).2 = inr 1%Z.
Proof. by_computation. Qed.

Lemma dry_run_changes_nothing_witness :
  ∃ w' r evs,
    process_markdown "a.md" true false (demo []) = (w', r)
    ∧ trace w' = [] ++ evs
    ∧ removals evs = []
    ∧ fs w' = demo_fs
    ∧ entries (fs w') (asset_dir_of "a.md") = entries demo_fs (asset_dir_of "a.md")
    ∧ (r = inr 0
       ∨ (text_of demo_fs "a.md" = None ∧ ∃ e, r = inl e)
       ∨ (unlistable demo_fs (asset_dir_of "a.md") = true ∧ ∃ e, r = inl e)).
Proof. apply (proj1 dry_run_changes_nothing "a.md" false (demo [])). Defined.

Lemma removes_only_files_of_the_asset_dir_witness :
  ∃ w' r,
    process_markdown "a.md" false true (demo []) = (w', r)
    ∧ (∀ p, fs w' !! p = demo_fs !! p
            ∨ (fs w' !! p = None
               ∧ (∃ c l, demo_fs !! p = Some (File c l))
               ∧ ∃ f, f ∈ entries demo_fs (asset_dir_of "a.md")
                      ∧ p = asset_dir_of "a.md" ++ "/" ++ f))
    ∧ (∀ p s, demo_fs !! p = Some (Dir s) → fs w' !! p = Some (Dir s))
    ∧ (∀ p n, fs w' !! p = Some n → demo_fs !! p = Some n).
Proof.
  apply (proj1 removes_only_files_of_the_asset_dir "a.md" false true (demo [])).
Defined.

(** The asset folder survives a run that empties it. *)
Example emptied_asset_dir_stays :
  let w' := (main [("a.md" : str)] false true (World case_fs [] [])).1 in
  entries (fs w') "a.assets" = []
  ∧ fs w' !! ("a.assets" : str) = Some (Dir false).
Proof. split; by_computation. Qed.



(** * Further properties *)

(** ** File discovery *)

Lemma leb_total s t : Str.leb s t = true ∨ Str.leb t s = true.
Proof.
  revert t. induction s as [|c s IH]; intros [|d t]; simpl; auto.
  destruct (N.ltb_spec (Str.code c) (Str.code d)); [by left|].
  destruct (N.ltb_spec (Str.code d) (Str.code c)); [by right|].
  apply IH.
Qed.

Lemma le_total : Total Str.le.
Proof. intros s t. apply leb_total. Qed.

Lemma sorted_is_sorted l : Sorted Str.le (Str.sorted l).
Proof. apply (@Sorted_merge_sort _ Str.le _ le_total). Qed.

Lemma md_entries_foldl p names results :
  foldl (λ results name,
           if is_md name then results ++ [Path.join p name] else results)
        results names
  = results ++ (Path.join p <$> filter (λ name, is_md name = true) names).
Proof.
  revert results. induction names as [|name names IH]; intros results; simpl.
  { by rewrite app_nil_r. }
  rewrite IH, filter_cons. destruct (is_md name) eqn:Hmd.
  - rewrite decide_True by done. by rewrite <- app_assoc.
  - by rewrite decide_False by done.
Qed.

Lemma examined_all t paths : refused t paths = None → examined t paths = paths.
Proof.
  induction paths as [|p paths IH]; [done|]. cbn [refused examined].
  destruct (unlistable t p); [done|]. intros ?%IH. by f_equal.
Qed.

Lemma examined_prefix t paths : ∃ rest, paths = examined t paths ++ rest.
Proof.
  induction paths as [|p paths [rest IH]]; [by exists []|]. cbn [examined].
  destruct (unlistable t p); [by eexists|].
  exists rest. simpl. by f_equal.
Qed.

Lemma find_markdown_files_loop_run paths results w :
  find_markdown_files_loop paths results w
  = (logs (EvPrint ∘ MsgIgnoring
             <$> filter (ignored (fs w)) (examined (fs w) paths)) w,
     match refused (fs w) paths with
     | None => inr (results ++ (paths ≫= found_in (fs w)))
     | Some q => inl (PermissionError q)
     end).
Proof.
  revert results w. induction paths as [|p paths IH]; intros results w.
  { simpl. unfold logs. rewrite !app_nil_r. by destruct w. }
  rewrite bind_cons. unfold found_in at 1.
  cbn [find_markdown_files_loop refused examined].
  unfold mbind at 1, M_bind at 1. rewrite os_path_isdir_run.
  destruct (isdir (fs w) p) eqn:Hdir.
  - unfold mbind at 1, M_bind at 1, os_listdir. unfold isdir in Hdir.
    unfold unlistable.
    destruct (fs w !! p) as [[|[|]]|] eqn:Hp; try done.
    { unfold logs. simpl. rewrite app_nil_r. by destruct w. }
    assert (isdir (fs w) p = true) as Hd by (unfold isdir; by rewrite Hp).
    rewrite IH, md_entries_foldl, filter_cons_False
      by (unfold ignored; intros [? _]; congruence).
    destruct (refused (fs w) paths); [done|]. by rewrite <- app_assoc.
  - assert (unlistable (fs w) p = false) as ->.
    { unfold isdir in Hdir. unfold unlistable.
      by destruct (fs w !! p) as [[|[|]]|]. }
    unfold mbind at 1, M_bind at 1. rewrite os_path_isfile_run.
    destruct (isfile (fs w) p && is_md p) eqn:Hf.
    + rewrite IH, filter_cons_False by (unfold ignored; intros [_ ?]; congruence).
      destruct (refused (fs w) paths); [done|]. by rewrite <- app_assoc.
    + erewrite bind_run by apply print_run.
      rewrite IH, filter_cons_True, logs_logs, fs_logs by done. done.
Qed.

Lemma find_markdown_files_run paths w :
  find_markdown_files paths w
  = (logs (EvPrint ∘ MsgIgnoring
             <$> filter (ignored (fs w)) (examined (fs w) paths)) w,
     match refused (fs w) paths with
     | None => inr (Str.sorted (paths ≫= found_in (fs w)))
     | Some q => inl (PermissionError q)
     end).
Proof.
  unfold find_markdown_files. unfold mbind, M_bind.
  rewrite find_markdown_files_loop_run.
  by destruct (refused (fs w) paths).
Qed.

(** X1.  Discovery returns unless an input is a directory that cannot be
    listed; then it raises the [PermissionError] of the first such input.
    When it returns, its findings are in lexicographic order of code
    points, and they are the findings of the inputs one by one, with their
    multiplicity: nothing is dropped and a path found twice is returned
    twice. *)
Theorem discovery_sorts_and_keeps_duplicates paths w :
  (refused (fs w) paths = None
   ↔ ∀ p, p ∈ paths → fs w !! p ≠ Some (Dir true))
  ∧ ∃ w' r,
      find_markdown_files paths w = (w', r)
      ∧ match refused (fs w) paths with
        | None =>
            ∃ mds, r = inr mds ∧ Sorted Str.le mds
                   ∧ mds ≡ₚ paths ≫= found_in (fs w)
        | Some q =>
            r = inl (PermissionError q)
            ∧ q ∈ paths ∧ fs w !! q = Some (Dir true)
        end.
Proof.
  assert (∀ p, unlistable (fs w) p = true ↔ fs w !! p = Some (Dir true))
    as Hun.
  { intros p. unfold unlistable.
    destruct (fs w !! p) as [[|[|]]|]; split; done. }
  split.
  { rewrite refused_None. split; intros H p Hp.
    - rewrite <- Hun. by rewrite H.
    - specialize (H p Hp). rewrite <- Hun in H.
      by destruct (unlistable (fs w) p). }
  rewrite find_markdown_files_run. eexists _, _. split; [done|].
  destruct (refused (fs w) paths) as [q|] eqn:Href.
  - destruct (refused_Some _ _ _ Href) as [Hq Hs]. by apply Hun in Hs.
  - eexists. split; [done|].
    split; [apply sorted_is_sorted|apply merge_sort_Permutation].
Qed.

(** X2.  Discovery prints one warning for each input it gets to that is
    neither a directory nor a regular file named like a Markdown file, in
    the order of the inputs, prints nothing else, and leaves the file
    system and the operator's input alone.  It gets to all the inputs, or
    to those before the first directory that cannot be listed. *)
Theorem discovery_warns_about_ignored_inputs paths w :
  ∃ w' r,
    find_markdown_files paths w = (w', r)
    ∧ fs w' = fs w ∧ stdin w' = stdin w
    ∧ drop (length (trace w)) (trace w')
      = EvPrint ∘ MsgIgnoring
          <$> filter (ignored (fs w)) (examined (fs w) paths)
    ∧ (∀ p, p ∈ examined (fs w) paths →
            (EvPrint (MsgIgnoring p) ∈ drop (length (trace w)) (trace w')
             ↔ isdir (fs w) p = false
               ∧ (isfile (fs w) p = false
                  ∨ Str.endswith (Str.lower p) ".md" = false)))
    ∧ (∃ rest, paths = examined (fs w) paths ++ rest)
    ∧ ((∃ mds, r = inr mds) → examined (fs w) paths = paths).
Proof.
  rewrite find_markdown_files_run. eexists _, _. split; [done|].
  rewrite fs_logs, stdin_logs, trace_logs, drop_app_length.
  split_and!; try done.
  - intros p Hp.
    rewrite list_elem_of_fmap. unfold ignored. split.
    + intros (q & Heq & [[? Hq] _]%list_elem_of_filter).
      simpl in Heq. injection Heq as <-.
      split; [done|]. by apply andb_false_iff.
    + intros [? Hq]. exists p. split; [done|]. apply list_elem_of_filter.
      split; [|done]. split; [done|]. by apply andb_false_iff.
  - apply examined_prefix.
  - intros [mds Hr]. apply examined_all.
    by destruct (refused (fs w) paths).
Qed.

Lemma endswith_spec s suf : Str.endswith s suf = true ↔ ∃ r, s = r ++ suf.
Proof.
  unfold Str.endswith. rewrite startswith_spec. split.
  - intros [r Hr]. exists (reverse r). apply (f_equal reverse) in Hr.
    by rewrite reverse_involutive, reverse_app, reverse_involutive in Hr.
  - intros [r ->]. exists (reverse r). by rewrite reverse_app.
Qed.

Lemma lower_char_dot c : Str.lower_char c = "."%char ↔ c = "."%char.
Proof. ascii_cases c. Qed.

Lemma lower_char_m c :
  Str.lower_char c = "m"%char ↔ c = "m"%char ∨ c = "M"%char.
Proof. ascii_cases c. Qed.

Lemma lower_char_d c :
  Str.lower_char c = "d"%char ↔ c = "d"%char ∨ c = "D"%char.
Proof. ascii_cases c. Qed.

(** X3.  The test of lines 32 and 34 accepts exactly the names that end
    in a dot, an [m] and a [d], each letter in either case. *)
Theorem markdown_extension_in_any_case name :
  Str.endswith (Str.lower name) ".md" = true
  ↔ ∃ stem m d,
      name = stem ++ ["."%char; m; d]
      ∧ (m = "m"%char ∨ m = "M"%char) ∧ (d = "d"%char ∨ d = "D"%char).
Proof.
  rewrite endswith_spec. unfold Str.lower. split.
  - intros [r Hr]. apply fmap_app_inv in Hr as (stem & ext & _ & Hext & ->).
    symmetry in Hext. destruct ext as [|a [|m [|d [|? ?]]]]; try done.
    injection Hext as Ha Hm Hd.
    apply lower_char_dot in Ha as ->. apply lower_char_m in Hm.
    apply lower_char_d in Hd. by exists stem, m, d.
  - intros (stem & m & d & -> & Hm%lower_char_m & Hd%lower_char_d).
    exists (Str.lower_char <$> stem). rewrite fmap_app. simpl.
    by rewrite Hm, Hd.
Qed.

(** X4.  The run opens the discovered documents in lexicographic order,
    each as often as discovery found it; it opens none where discovery
    fails on a directory that cannot be listed. *)
Theorem run_opens_documents_in_sorted_order paths dry_run yes w :
  ∃ w' r evs,
    main paths dry_run yes w = (w', r)
    ∧ trace w' = trace w ++ evs
    ∧ Sorted Str.le (reads evs)
    ∧ match refused (fs w) paths with
      | None => reads evs ≡ₚ paths ≫= found_in (fs w)
      | Some _ => reads evs = []
      end.
Proof.
  destruct (refused (fs w) paths) as [q|] eqn:Href.
  - destruct (main_refused paths dry_run yes w q Href)
      as (evs & Hmain & _ & _ & _ & Hrd).
    eexists _, _, evs. split; [exact Hmain|]. rewrite Hrd.
    split_and!; [done|constructor|done].
  - destruct (main_spec paths dry_run yes w Href)
      as (evs0 & mds & w' & evs & Hfind & Hmain & Htr & Hrd & _).
    rewrite find_markdown_files_run, Href in Hfind. injection Hfind as _ <-.
    eexists w', _, evs. split; [exact Hmain|]. rewrite Hrd.
    split_and!; [done|apply sorted_is_sorted|apply merge_sort_Permutation].
Qed.

(** ** The asset folder of a document *)

Lemma rfind_go_present c s i last :
  c ∈ s → Str.rfind_go c s i last = (i + Str.rfind c s)%Z.
Proof.
  unfold Str.rfind. revert i last.
  induction s as [|d s IH]; intros i last Hc; simpl.
  { by apply elem_of_nil in Hc. }
  destruct (decide (c ∈ s)) as [Hs|Hs].
  - rewrite (IH (i + 1)%Z), (IH (0 + 1)%Z) by done. lia.
  - apply elem_of_cons in Hc as [->|Hc]; [|done].
    rewrite !rfind_go_absent, !decide_True by done. lia.
Qed.

Lemma rfind_go_app c a b i last :
  Str.rfind_go c (a ++ b) i last
  = Str.rfind_go c b (i + Z.of_nat (length a)) (Str.rfind_go c a i last).
Proof.
  revert i last. induction a as [|d a IH]; intros i last; simpl.
  { f_equal. lia. }
  rewrite IH. f_equal. lia.
Qed.

Lemma rfind_app_present c a b :
  c ∈ b → Str.rfind c (a ++ b) = (Z.of_nat (length a) + Str.rfind c b)%Z.
Proof.
  intros Hc. unfold Str.rfind at 1. by rewrite rfind_go_app, rfind_go_present.
Qed.

Lemma rfind_app_absent c a b : c ∉ b → Str.rfind c (a ++ b) = Str.rfind c a.
Proof.
  intros Hc. unfold Str.rfind. by rewrite rfind_go_app, rfind_go_absent.
Qed.

Lemma rfind_absent c s : c ∉ s → Str.rfind c s = (-1)%Z.
Proof. apply rfind_go_absent. Qed.

Lemma rfind_head c s : c ∉ s → Str.rfind c (c :: s) = 0%Z.
Proof.
  intros Hc. unfold Str.rfind. simpl.
  by rewrite rfind_go_absent, decide_True.
Qed.

Lemma rfind_bound c s : (-1 ≤ Str.rfind c s < Z.of_nat (length s))%Z.
Proof.
  destruct (decide (c ∈ s)) as [Hc|Hc].
  - destruct (rfind_go_last c s 0 (-1) Hc) as (s1 & s2 & -> & _ & Hr).
    unfold Str.rfind. rewrite Hr, length_app. simpl. lia.
  - rewrite rfind_absent by done. lia.
Qed.

Lemma rfind_before c s i :
  (Str.rfind c s < i)%Z → c ∉ Str.from i s.
Proof.
  unfold Str.from. intros Hi Hin.
  destruct (decide (c ∈ s)) as [Hc|Hc].
  - destruct (rfind_go_last c s 0 (-1) Hc) as (s1 & s2 & -> & Hs2 & Hr).
    unfold Str.rfind in Hi. rewrite Hr in Hi.
    replace (Z.to_nat i) with (length s1 + S (Z.to_nat i - length s1 - 1)) in Hin by lia.
    rewrite <- drop_drop, drop_app_length in Hin. simpl in Hin.
    apply Hs2. by eapply subseteq_drop.
  - apply Hc. by eapply subseteq_drop.
Qed.

Lemma has_non_dot_spec name :
  Path.has_non_dot name = true ↔ ∃ c, c ∈ name ∧ c ≠ "."%char.
Proof.
  induction name as [|d name IH]; simpl.
  { split; [done|]. by intros (c & ?%elem_of_nil & _). }
  destruct (Ascii.eqb_spec d Path.extsep) as [->|Hd]; simpl.
  - rewrite IH. split.
    + intros (c & ? & ?). exists c. split; [by right|done].
    + intros (c & [->|?]%elem_of_cons & ?); [done|eauto].
  - split; [|done]. intros _. exists d. split; [by left|done].
Qed.

Lemma splitext_cases p :
  let sepIndex := Str.rfind Path.sep p in
  let dotIndex := Str.rfind Path.extsep p in
  Path.splitext p
  = if (sepIndex <? dotIndex)%Z
       && Path.has_non_dot
            (take (Z.to_nat (dotIndex - (sepIndex + 1)))
                  (drop (Z.to_nat (sepIndex + 1)) p))
    then (take (Z.to_nat dotIndex) p, drop (Z.to_nat dotIndex) p)
    else (p, []).
Proof. done. Qed.

Lemma rfind_from c s :
  c ∈ s → ∃ e, Str.from (Str.rfind c s) s = c :: e ∧ c ∉ e.
Proof.
  intros Hc. destruct (rfind_go_last c s 0 (-1) Hc) as (s1 & s2 & -> & Hs2 & Hr).
  unfold Str.from, Str.rfind. rewrite Hr.
  replace (Z.to_nat (0 + Z.of_nat (length s1))) with (length s1) by lia.
  rewrite drop_app_length. eauto.
Qed.

Lemma asset_dir_of_parts p :
  ∃ root ext,
    p = root ++ ext
    ∧ asset_dir_of p = root ++ ".assets"
    ∧ (Path.sep ∉ ext)
    ∧ (ext = [] ∨ ∃ e, ext = "."%char :: e ∧ "."%char ∉ e).
Proof.
  exists (Path.splitext p).1, (Path.splitext p).2.
  assert (asset_dir_of p = (Path.splitext p).1 ++ ".assets") as ->.
  { unfold asset_dir_of. by destruct (Path.splitext p). }
  rewrite splitext_cases. simpl.
  destruct (_ && _) eqn:Hc; simpl.
  - apply andb_true_iff in Hc as [Hlt%Z.ltb_lt _].
    split_and!; [by rewrite take_drop|done|by apply rfind_before|].
    right. apply rfind_from. destruct (decide (Path.extsep ∈ p)); [done|].
    rewrite (rfind_absent Path.extsep) in Hlt by done.
    pose proof (rfind_bound Path.sep p). lia.
  - split_and!; [by rewrite app_nil_r|done|by intros ?%elem_of_nil|by left].
Qed.

(** X5.  The asset folder is the document's path with its extension
    replaced by [.assets], where the extension is empty or runs from the
    last dot of the path and holds neither another dot nor a separator: the
    folder lies in the same directory as the document. *)
Theorem asset_dir_replaces_the_extension p :
  ∃ root ext,
    p = root ++ ext
    ∧ asset_dir_of p = root ++ ".assets"
    ∧ ("/"%char ∉ ext)
    ∧ (ext = [] ∨ ∃ e, ext = "."%char :: e ∧ "."%char ∉ e).
Proof. apply asset_dir_of_parts. Qed.

(** X6.  Where the last component of [stem] has a character other than a
    dot, and [ext] holds no dot and no separator, the asset folder of
    [stem.ext] is [stem.assets]. *)
Theorem asset_dir_of_named_document a c b ext :
  c ≠ "."%char → c ≠ "/"%char → "/"%char ∉ b →
  "."%char ∉ ext → "/"%char ∉ ext →
  asset_dir_of ((a ++ c :: b) ++ "."%char :: ext) = (a ++ c :: b) ++ ".assets".
Proof.
  intros Hc1 Hc2 Hb He1 He2.
  assert (Path.splitext ((a ++ c :: b) ++ "."%char :: ext)
          = (a ++ c :: b, "."%char :: ext)) as Hs;
    [|unfold asset_dir_of; by rewrite Hs].
  rewrite splitext_cases. cbv zeta.
  assert (Str.rfind Path.extsep ((a ++ c :: b) ++ "."%char :: ext)
          = Z.of_nat (length (a ++ c :: b))) as ->.
  { rewrite rfind_app_present by left. rewrite rfind_head by done. lia. }
  assert (Str.rfind Path.sep ((a ++ c :: b) ++ "."%char :: ext)
          = Str.rfind Path.sep a) as ->.
  { rewrite rfind_app_absent, rfind_app_absent; [done| |].
    - intros [Heq|?]%elem_of_cons; [by apply Hc2|done].
    - by intros [[=]|?]%elem_of_cons. }
  pose proof (rfind_bound Path.sep a) as Hk.
  set (k := Str.rfind Path.sep a) in *.
  rewrite Nat2Z.id, take_app_length, drop_app_length.
  assert (take (Z.to_nat (Z.of_nat (length (a ++ c :: b)) - (k + 1)))
            (drop (Z.to_nat (k + 1)) ((a ++ c :: b) ++ "."%char :: ext))
          = drop (Z.to_nat (k + 1)) a ++ c :: b) as ->.
  { rewrite <- !app_assoc, drop_app_le by lia.
    rewrite app_assoc.
    replace (Z.to_nat (Z.of_nat (length (a ++ c :: b)) - (k + 1)))
      with (length (drop (Z.to_nat (k + 1)) a ++ c :: b)).
    - apply take_app_length.
    - rewrite !length_app, length_drop. simpl. lia. }
  assert (Path.has_non_dot (drop (Z.to_nat (k + 1)) a ++ c :: b) = true) as ->.
  { apply has_non_dot_spec. exists c. split; [|done].
    apply elem_of_app. right. by left. }
  rewrite length_app in *. simpl in *.
  by destruct (Z.ltb_spec k (Z.of_nat (length a + S (length b)))); [|lia].
Qed.

Lemma asset_dir_of_named_document_witness :
  asset_dir_of (("docs/" ++ "r"%char :: "eport") ++ "."%char :: "md")
  = ("docs/" ++ "r"%char :: "eport") ++ ".assets".
Proof.
  apply (asset_dir_of_named_document "docs/" "r"%char "eport" "md");
    first [discriminate | by apply (bool_decide_unpack _)].
Defined.

(** X7.  Where the last component of the path consists of dots up to its
    last dot (a hidden file such as [.md]), there is no extension to
    replace: the asset folder is the whole path followed by [.assets]. *)
Theorem asset_dir_of_dot_file dir dots ext :
  dir = [] ∨ (∃ d, dir = d ++ ["/"%char]) →
  (∀ c, c ∈ dots → c = "."%char) →
  "."%char ∉ ext → "/"%char ∉ ext →
  asset_dir_of ((dir ++ dots) ++ "."%char :: ext)
  = (dir ++ dots) ++ "."%char :: ext ++ ".assets".
Proof.
  intros Hdir Hdots He1 He2.
  assert (Path.splitext ((dir ++ dots) ++ "."%char :: ext)
          = ((dir ++ dots) ++ "."%char :: ext, [])) as Hs;
    [|unfold asset_dir_of; rewrite Hs; by rewrite <- !app_assoc].
  rewrite splitext_cases. cbv zeta.
  assert (Str.rfind Path.extsep ((dir ++ dots) ++ "."%char :: ext)
          = Z.of_nat (length (dir ++ dots))) as ->.
  { rewrite rfind_app_present by left. rewrite rfind_head by done. lia. }
  assert (Path.sep ∉ dots) as Hnd.
  { intros Hin. by specialize (Hdots _ Hin). }
  assert (Str.rfind Path.sep ((dir ++ dots) ++ "."%char :: ext) + 1
          = Z.of_nat (length dir))%Z as Hk.
  { rewrite rfind_app_absent, rfind_app_absent; [|done|].
    - destruct Hdir as [->|[d ->]]; [done|].
      rewrite rfind_app_present by left. rewrite rfind_head by by intros ?%elem_of_nil.
      rewrite length_app. simpl. lia.
    - by intros [[=]|?]%elem_of_cons. }
  rewrite Hk.
  replace (Z.to_nat (Z.of_nat (length (dir ++ dots)) - Z.of_nat (length dir)))
    with (length dots) by (rewrite length_app; lia).
  rewrite Nat2Z.id, <- !app_assoc, drop_app_length, take_app_length.
  assert (Path.has_non_dot dots = false) as ->.
  { destruct (Path.has_non_dot dots) eqn:Hn; [|done].
    apply has_non_dot_spec in Hn as (c & Hin & Hne). by specialize (Hdots _ Hin). }
  by rewrite andb_false_r.
Qed.

Lemma asset_dir_of_dot_file_witness :
  asset_dir_of (("d/" ++ []) ++ "."%char :: "md")
  = ("d/" ++ []) ++ "."%char :: "md" ++ ".assets".
Proof.
  apply (asset_dir_of_dot_file "d/" [] "md").
  - right. by exists ("d" : str).
  - by intros c ?%elem_of_nil.
  - by apply (bool_decide_unpack _).
  - by apply (bool_decide_unpack _).
Defined.

(** ** One document: what is left alone *)

Lemma process_markdown_unreadable_run md dry_run yes w :
  text_of (fs w) md = None →
  process_markdown md dry_run yes w
  = (logs [EvRead md] w, inl (read_error (fs w) md)).
Proof.
  unfold text_of, process_markdown, read_error. intros Ht.
  unfold mbind at 1, M_bind at 1. rewrite read_text_run.
  by destruct (fs w !! md) as [[[?|] ?|]|].
Qed.

(** X8.  A document that cannot be read (missing, a directory, or not
    valid UTF-8) raises the matching exception before anything else is
    looked at; the run prints the error for it and goes on with the next
    document, its total unchanged. *)
Theorem unreadable_document_is_reported_and_skipped md mds dry_run yes total w :
  text_of (fs w) md = None →
  process_markdown md dry_run yes w
  = (logs [EvRead md] w, inl (read_error (fs w) md))
  ∧ main_loop (md :: mds) dry_run yes total w
    = main_loop mds dry_run yes total
        (logs [EvRead md; EvPrint (MsgError md (read_error (fs w) md))] w).
Proof.
  intros Ht. split; [by apply process_markdown_unreadable_run|].
  rewrite main_loop_step, process_markdown_unreadable_run by done.
  by rewrite logs_logs.
Qed.

Lemma unreadable_document_is_reported_and_skipped_witness :
  process_markdown "docs/notes.md" false true (World docs_fs [] [])
  = (logs [EvRead "docs/notes.md"] (World docs_fs [] []),
     inl (read_error docs_fs "docs/notes.md"))
  ∧ main_loop ["docs/notes.md" : str; "docs/readme.MD" : str] false true 0
      (World docs_fs [] [])
    = main_loop ["docs/readme.MD" : str] false true 0
        (logs [EvRead "docs/notes.md";
               EvPrint (MsgError "docs/notes.md"
                          (read_error docs_fs "docs/notes.md"))]
              (World docs_fs [] [])).
Proof.
  apply (unreadable_document_is_reported_and_skipped "docs/notes.md"
           ["docs/readme.MD" : str] false true 0 (World docs_fs [] [])).
  by_computation.
Defined.

(** X9.  A readable document with nothing to delete returns zero in every
    mode after one line that says why (no asset folder, no regular file
    in it, or every file referenced); the operator is not asked and
    nothing is removed.  Where the asset folder is there and cannot be
    listed, the document raises the [PermissionError] of [os.listdir]
    instead, with nothing printed. *)
Theorem nothing_unused_is_reported_once md dry_run yes w text :
  text_of (fs w) md = Some text →
  unused_files (fs w) md = [] →
  process_markdown md dry_run yes w
  = if unlistable (fs w) (asset_dir_of md) then
      (logs [EvRead md] w, inl (PermissionError (asset_dir_of md)))
    else
      (logs [EvRead md;
             EvPrint
               (if negb (isdir (fs w) (asset_dir_of md)) then
                  MsgNoAssetDir md (asset_dir_of md)
                else if bool_decide (all_files_of (fs w) (asset_dir_of md) = [])
                then MsgNoFiles (asset_dir_of md)
                else MsgNoUnused (asset_dir_of md))] w,
       inr 0).
Proof.
  intros Ht Hun. rewrite (process_markdown_readable _ _ _ _ _ Ht).
  unfold unused_files in Hun. rewrite Ht in Hun.
  destruct (listable (fs w) (asset_dir_of md)) eqn:Hl; cbn [negb].
  - apply listable_spec in Hl as [-> ->]. cbn [negb].
    case_bool_decide; [done|]. by rewrite Hun, bool_decide_true.
  - destruct (isdir (fs w) (asset_dir_of md)) eqn:Hd.
    + assert (unlistable (fs w) (asset_dir_of md) = true) as ->
        by (by apply unlistable_spec).
      done.
    + destruct (unlistable (fs w) (asset_dir_of md)) eqn:Hu; [|done].
      apply unlistable_spec in Hu as [? _]. congruence.
Qed.

Lemma nothing_unused_is_reported_once_witness :
  process_markdown "docs/readme.MD" false false
    (World (delete ("docs/readme.assets/old.png" : str) docs_fs) [] [])
  = (logs [EvRead "docs/readme.MD";
           EvPrint (MsgNoUnused (asset_dir_of "docs/readme.MD"))]
       (World (delete ("docs/readme.assets/old.png" : str) docs_fs) [] []),
     inr 0).
Proof.
  rewrite (nothing_unused_is_reported_once "docs/readme.MD" false false
             (World (delete ("docs/readme.assets/old.png" : str) docs_fs) [] [])
             "<img src='docs/readme.assets/logo.png'>") by by_computation.
  by_computation.
Defined.

(** X10.  In interactive mode, when the operator's input is at its end,
    a document with unused files raises [EOFError] after its report:
    nothing is removed, and the run prints the error and goes on. *)
Theorem end_of_input_removes_nothing md mds total w :
  unused_files (fs w) md ≠ [] →
  stdin w = [] →
  ∃ evs,
    process_markdown md false false w = (logs evs w, inl EOFError)
    ∧ removals evs = []
    ∧ prompts evs = [None]
    ∧ unused_lines evs = unused_files (fs w) md
    ∧ main_loop (md :: mds) false false total w
      = main_loop mds false false total
          (logs (evs ++ [EvPrint (MsgError md EOFError)]) w).
Proof.
  intros Hun Hin.
  destruct (unused_files (fs w) md) as [|f0 l0] eqn:Hu; [done|].
  destruct (unused_files_cons _ _ _ _ Hu) as (text & Ht & Hdir).
  rewrite (unused_files_readable _ _ _ Ht Hdir) in Hu.
  rewrite main_loop_step.
  rewrite (process_markdown_readable _ _ _ _ _ Ht), Hdir. cbn [negb].
  rewrite bool_decide_false, bool_decide_false; [| |].
  2:{ by rewrite Hu. }
  2:{ intros Hall. by rewrite Hall in Hu. }
  rewrite Hu, delete_unused_eof, !logs_logs by done.
  destruct (report_events_quiet (asset_dir_of md)
              (extract_image_paths Path.Posix text) (f0 :: l0))
    as (Hrm & Hpr & Hrd & Hul).
  eexists. split; [done|].
  change (EvRead md :: report_events ?a ?b ?c)
    with ([EvRead md] ++ report_events a b c).
  rewrite !removals_app, !prompts_app, !unused_lines_app, Hrm, Hpr, Hul.
  split_and!; try done. simpl. by rewrite app_nil_r.
Qed.

Lemma end_of_input_removes_nothing_witness :
  ∃ evs,
    process_markdown "a.md" false false (demo []) = (logs evs (demo []), inl EOFError)
    ∧ removals evs = []
    ∧ prompts evs = [None]
    ∧ unused_lines evs = unused_files demo_fs "a.md"
    ∧ main_loop ["a.md" : str] false false 0 (demo [])
      = main_loop [] false false 0
          (logs (evs ++ [EvPrint (MsgError "a.md" EOFError)]) (demo [])).
Proof.
  apply (end_of_input_removes_nothing "a.md" [] 0 (demo [])); by_computation.
Defined.

(** X11.  Processing a document never removes the document itself. *)
Theorem document_survives_its_own_run md dry_run yes w :
  fs (process_markdown md dry_run yes w).1 !! md = fs w !! md.
Proof.
  destruct (process_markdown_summary md dry_run yes w)
    as (w' & r & evs & -> & _ & _ & _ & Hin & Hfs & _).
  simpl. destruct (Hfs md) as [?|(_ & _ & Hrm)]; [done|]. exfalso.
  destruct (Hin _ _ Hrm) as (f & Hf & Hmd).
  destruct (entry_of_unused_file _ _ _ Hf) as [_ Hsep].
  rewrite join_asset_dir in Hmd by done.
  destruct (asset_dir_of_parts md) as (root & ext & Hp & Had & Hext & _).
  rewrite Had, Hp, <- !app_assoc in Hmd at 1.
  apply app_inv_head in Hmd. apply Hext. rewrite Hmd.
  apply elem_of_app. right. by left.
Qed.

(** ** One document: what is removed *)











(** ** The run: its total and its questions *)




Lemma process_markdown_never_asks md dry_run yes w :
  dry_run = true ∨ yes = true →
  ∃ w' r evs,
    process_markdown md dry_run yes w = (w', r)
    ∧ trace w' = trace w ++ evs
    ∧ prompts evs = [] ∧ stdin w' = stdin w.
Proof.
  intros Hmode.
  destruct (process_markdown_cases md dry_run yes w)
    as [(evs & r & ins & -> & _ & _ & _ & _ & Hquiet & _)|(-> & Hun & Hgo)].
  - destruct (Hquiet Hmode) as [Hpr ->]. by eexists _, _, _.
  - destruct Hmode as [?| ->]; [done|].
    destruct (process_markdown_deletes md true w Hun Hgo)
      as (w' & evs & -> & Htr & _ & _ & Hpr & Hin & _).
    by eexists _, _, _.
Qed.

Lemma main_loop_never_asks mds dry_run yes total w :
  dry_run = true ∨ yes = true →
  ∃ w' r evs,
    main_loop mds dry_run yes total w = (w', r)
    ∧ trace w' = trace w ++ evs
    ∧ prompts evs = [] ∧ stdin w' = stdin w.
Proof.
  intros Hmode. revert total w. induction mds as [|md mds IH]; intros total w.
  { eexists w, _, []. by rewrite app_nil_r. }
  rewrite main_loop_step.
  destruct (process_markdown_never_asks md dry_run yes w Hmode)
    as (w1 & r & evs1 & -> & Htr1 & Hpr1 & Hin1).
  destruct r as [e|d].
  - destruct (IH total (logs [EvPrint (MsgError md e)] w1))
      as (w' & r & evs & -> & Htr & Hpr & Hin).
    eexists w', r, (evs1 ++ [EvPrint (MsgError md e)] ++ evs).
    rewrite Htr, trace_logs, Htr1, Hin, stdin_logs, Hin1, <- !app_assoc.
    rewrite !prompts_app, Hpr1, Hpr. done.
  - destruct (IH (total + d) w1) as (w' & r & evs & -> & Htr & Hpr & Hin).
    eexists w', r, (evs1 ++ evs).
    rewrite Htr, Htr1, Hin, Hin1, <- !app_assoc, prompts_app, Hpr1, Hpr. done.
Qed.

(** X14.  With [--yes] or [--dry-run] the run never calls [input]: it
    cannot block on the operator, and the operator's input is left
    unread, however the run ends. *)
Theorem flags_silence_the_prompt paths dry_run yes w :
  dry_run = true ∨ yes = true →
  ∃ w' r evs,
    main paths dry_run yes w = (w', r)
    ∧ trace w' = trace w ++ evs
    ∧ prompts evs = []
    ∧ stdin w' = stdin w.
Proof.
  intros Hmode. rewrite main_run, find_markdown_files_run.
  set (evs0 := EvPrint ∘ MsgIgnoring
                 <$> filter (ignored (fs w)) (examined (fs w) paths)).
  assert (prompts evs0 = []) as Hpr0 by apply prompts_prints.
  destruct (refused (fs w) paths) as [q|] eqn:Href.
  { by eexists _, _, evs0. }
  case_bool_decide.
  - eexists _, _, (evs0 ++ [EvPrint MsgNoMarkdown]).
    rewrite logs_logs, prompts_app, Hpr0. done.
  - destruct (main_loop_never_asks (Str.sorted (paths ≫= found_in (fs w)))
                dry_run yes 0 (logs evs0 w) Hmode)
      as (w' & r & evs & Hrun & Htr & Hpr & Hin).
    destruct (main_loop_spec (Str.sorted (paths ≫= found_in (fs w))) dry_run yes 0
                (logs evs0 w)) as (w'' & evs' & Hrun' & _).
    rewrite Hrun' in Hrun. injection Hrun as <- <-.
    rewrite Hrun'.
    eexists _, _, (evs0 ++ evs ++ [EvPrint (MsgFinished _)]).
    rewrite trace_logs, Htr, trace_logs, stdin_logs, Hin, stdin_logs,
      <- !app_assoc, !prompts_app, Hpr0, Hpr. done.
Qed.

Lemma flags_silence_the_prompt_witness :
  ∃ w' r evs,
    main ["a.md" : str] false true (demo ["no" : str]) = (w', r)
    ∧ trace w' = [] ++ evs
    ∧ prompts evs = []
    ∧ stdin w' = ["no" : str].
Proof.
  apply (flags_silence_the_prompt ["a.md" : str] false true (demo ["no" : str])).
  by right.
Defined.


(** ** The reference extractor on well-formed references *)

Lemma advance_step n q : advance n (Re.step q) = advance (S n) q.
Proof. unfold advance, Re.step. simpl. f_equal. lia. Qed.

Lemma advance_0 q : advance 0 q = q.
Proof. destruct q. unfold advance. simpl. f_equal. lia. Qed.

Lemma prev_after_cons prev c l : prev_after prev (c :: l) = prev_after (Some c) l.
Proof. unfold prev_after. by destruct l using rev_ind; rewrite ?app_comm_cons, ?last_snoc. Qed.

(** A greedy repetition that can take all of [l] and no more, and whose
    continuation then succeeds, succeeds with that result. *)
Lemma star_run p k prev l rest q r :
  (∀ c, c ∈ l → p c = true) →
  match rest with c :: _ => p c = false | [] => True end →
  k (prev_after prev l) rest (advance (length l) q) = Some r →
  Re.star p k prev (l ++ rest) q = Some r.
Proof.
  revert prev q. induction l as [|c l IH]; intros prev q Hl Hrest Hk.
  - simpl in *. rewrite advance_0 in Hk. unfold prev_after in Hk. simpl in Hk.
    destruct rest as [|c rest]; simpl; [done|]. by rewrite Hrest.
  - simpl. rewrite (Hl c) by left.
    rewrite (IH (Some c) (Re.step q)); [done| |done|].
    + intros d Hd. apply Hl. by right.
    + by rewrite advance_step, <- (prev_after_cons prev).
Qed.

Lemma span_of_group (a b c s : str) n m :
  s = a ++ b ++ c → n = length a → m = length b → take m (drop n s) = b.
Proof. intros -> -> ->. by rewrite drop_app_length, take_app_length. Qed.

Lemma md_image_match_at prev alt target post :
  "]"%char ∉ alt → target ≠ [] → ")"%char ∉ target →
  Re.match_at md_image_re prev
    ("![" ++ alt ++ "](" ++ target ++ ")" ++ post)
  = Some (length alt + length target + 5, target).
Proof.
  intros Halt Hne Htarget. destruct target as [|t0 target]; [done|].
  apply not_elem_of_cons in Htarget as [Ht0 Htarget].
  assert (∀ l : str, "]"%char ∉ l → ∀ c, c ∈ l → Re.none_of ["]"%char] c = true)
    as Hnb.
  { intros l Hl c Hc. unfold Re.none_of, Re.any_of. simpl.
    destruct (Ascii.eqb_spec c "]"); [by subst|done]. }
  assert (∀ l : str, ")"%char ∉ l → ∀ c, c ∈ l → Re.none_of [")"%char] c = true)
    as Hnp.
  { intros l Hl c Hc. unfold Re.none_of, Re.any_of. simpl.
    destruct (Ascii.eqb_spec c ")"); [by subst|done]. }
  unfold Re.match_at, md_image_re. cbn [Re.match_items Re.lit].
  change ("![" ++ alt ++ "](" ++ (t0 :: target) ++ ")" ++ post)
    with ("!"%char :: "["%char :: alt
          ++ ("]"%char :: "("%char :: t0 :: target ++ ")"%char :: post)).
  cbn [Ascii.eqb Bool.eqb andb]. cbv iota.
  erewrite star_run; [|by apply Hnb|done|].
  2:{ cbn [Re.match_items Re.lit Ascii.eqb Bool.eqb andb]. cbv iota.
      rewrite (Hnp (t0 :: target)) by (by apply not_elem_of_cons || left).
      erewrite star_run; [done|by apply Hnp|done|].
      cbn [Re.match_items Re.lit Ascii.eqb Bool.eqb andb]. cbv iota. done. }
  cbn [Re.consumed Re.g_start Re.g_end advance Re.step].
  f_equal. f_equal; [simpl; lia|].
  apply (span_of_group ("![" ++ alt ++ "](") (t0 :: target) (")"%char :: post)).
  - by rewrite <- !app_assoc.
  - rewrite !length_app. simpl. lia.
  - simpl. lia.
Qed.

Lemma md_image_no_match prev c rest :
  c ≠ "!"%char → Re.match_at md_image_re prev (c :: rest) = None.
Proof.
  intros Hc. unfold Re.match_at, md_image_re. cbn [Re.match_items Re.lit].
  by destruct (Ascii.eqb_spec "!" c); [subst|].
Qed.

(** Characters that cannot start a match are stepped over one at a time. *)
Lemma finditer_go_skip re prev pre s :
  (∀ c, c ∈ pre → ∀ prev' rest, Re.match_at re prev' (c :: rest) = None) →
  Re.finditer_go re prev (pre ++ s) 0
  = Re.finditer_go re (prev_after prev pre) s 0.
Proof.
  revert prev. induction pre as [|c pre IH]; intros prev Hpre; [done|].
  simpl. rewrite Hpre by left. rewrite IH, <- (prev_after_cons prev); [done|].
  intros d Hd. apply Hpre. by right.
Qed.

Lemma finditer_go_hit re prev s n g :
  Re.match_at re prev s = Some (n, g) → g ∈ Re.finditer_go re prev s 0.
Proof. intros H. destruct s; simpl; rewrite H; left. Qed.

Lemma md_image_found pre alt g post :
  "!"%char ∉ pre → "]"%char ∉ alt → g ≠ [] → ")"%char ∉ g →
  g ∈ Re.finditer md_image_re (pre ++ "![" ++ alt ++ "](" ++ g ++ ")" ++ post).
Proof.
  intros Hpre Halt Hne Hg. unfold Re.finditer.
  rewrite finditer_go_skip.
  - eapply finditer_go_hit. by apply md_image_match_at.
  - intros c Hc prev' rest. apply md_image_no_match. by intros ->.
Qed.

(** X15.  The first inline image of a text is always picked up: where the
    text before [![alt](target)] holds no exclamation mark, the
    alternative text no closing square bracket and the target is not
    empty and holds no closing round bracket, the base name of the
    normalised target is in the set of references, unless it is empty. *)
Theorem inline_image_is_extracted fl pre alt g post :
  "!"%char ∉ pre → "]"%char ∉ alt → g ≠ [] → ")"%char ∉ g →
  Path.basename fl (md_target g) ≠ [] →
  Path.basename fl (md_target g)
  ∈ extract_image_paths fl (pre ++ "![" ++ alt ++ "](" ++ g ++ ")" ++ post).
Proof.
  intros Hpre Halt Hne Hg Hbase.
  apply elem_of_extract_image_paths. split; [|done].
  left. exists g. split; [by apply md_image_found|done].
Qed.

Lemma inline_image_is_extracted_witness :
  ("shot.png" : str)
  ∈ extract_image_paths Path.Posix
      ("See " ++ "![" ++ "a shot" ++ "](" ++ "doc.assets/shot.png" ++ ")"
       ++ " below.").
Proof.
  apply (inline_image_is_extracted Path.Posix "See " "a shot"
           "doc.assets/shot.png" " below.");
    first [by_computation | apply (bool_decide_unpack _); by_computation].
Defined.

Lemma lstrip_id c r : Str.is_space c = false → Str.lstrip (c :: r) = c :: r.
Proof. intros Hc. simpl. by rewrite Hc. Qed.

Lemma lstrip_app a b :
  Str.lstrip (a ++ b)
  = match Str.lstrip a with [] => Str.lstrip b | _ => Str.lstrip a ++ b end.
Proof.
  induction a as [|c a IH]; simpl; [by destruct (Str.lstrip b)|].
  by destruct (Str.is_space c).
Qed.

Lemma rstrip_snoc s c :
  Str.is_space c = false → Str.rstrip (s ++ [c]) = s ++ [c].
Proof.
  intros Hc. unfold Str.rstrip. rewrite reverse_snoc, lstrip_id by done.
  by rewrite reverse_cons, reverse_involutive.
Qed.

(** [rstrip] only looks at the end: a prefix that does not end in white
    space is kept. *)
Lemma rstrip_app s c rest :
  Str.is_space c = false →
  Str.rstrip ((s ++ [c]) ++ rest) = (s ++ [c]) ++ Str.rstrip rest.
Proof.
  intros Hc. unfold Str.rstrip at 1. rewrite reverse_app, lstrip_app.
  destruct (Str.lstrip (reverse rest)) as [|d l] eqn:Hl.
  - unfold Str.rstrip. rewrite Hl, app_nil_r.
    apply (rstrip_snoc s c Hc).
  - unfold Str.rstrip. rewrite Hl.
    by rewrite reverse_app, reverse_involutive.
Qed.

Lemma rstrip_prefix s : ∃ ws, s = Str.rstrip s ++ ws.
Proof.
  destruct (lstrip_spec (reverse s)) as (ws & Hs & _).
  exists (reverse ws). unfold Str.rstrip.
  by rewrite <- reverse_app, <- Hs, reverse_involutive.
Qed.

Lemma no_space_last (t : str) :
  t ≠ [] → Forall (λ c, Str.is_space c = false) t →
  ∃ s c, t = s ++ [c] ∧ Str.is_space c = false.
Proof.
  intros Hne Ht. destruct t as [|d t] using rev_ind; [done|].
  apply Forall_app in Ht as [_ Hd]. rewrite Forall_singleton in Hd.
  by exists t, d.
Qed.

Lemma no_space_head (t : str) :
  t ≠ [] → Forall (λ c, Str.is_space c = false) t →
  ∃ c r, t = c :: r ∧ Str.is_space c = false.
Proof.
  intros Hne Ht. destruct t as [|c r]; [done|].
  rewrite Forall_cons in Ht. destruct Ht as [Hc _]. by exists c, r.
Qed.

(** A word followed by more text is stripped to the word and what is left
    of the text. *)
Lemma strip_word_app (t rest : str) :
  t ≠ [] → Forall (λ c, Str.is_space c = false) t →
  Str.strip (t ++ rest) = t ++ Str.rstrip rest.
Proof.
  intros Hne Ht. unfold Str.strip.
  destruct (no_space_head t Hne Ht) as (c & r & -> & Hc).
  rewrite <- app_comm_cons, lstrip_id, app_comm_cons by done.
  destruct (no_space_last _ Hne Ht) as (s & d & -> & Hd).
  by apply rstrip_app.
Qed.

Lemma strip_word (t : str) :
  t ≠ [] → Forall (λ c, Str.is_space c = false) t → Str.strip t = t.
Proof.
  intros Hne Ht. rewrite <- (app_nil_r t) at 1.
  rewrite strip_word_app by done. unfold Str.rstrip. simpl.
  by rewrite app_nil_r.
Qed.

Lemma contains_space_word (t : str) :
  Forall (λ c, Str.is_space c = false) t → Str.contains " " t = false.
Proof.
  intros Ht. unfold Str.contains. apply bool_decide_eq_false. intros Hin.
  rewrite Forall_forall in Ht. by apply Ht in Hin.
Qed.

Lemma startswith_angle_head (c : ascii) (r : str) :
  c ≠ "<"%char → Str.startswith (c :: r) "<" = false.
Proof.
  intros Hc. cbn [Str.startswith list_ascii_of_string].
  destruct (Ascii.eqb_spec "<" c) as [Heq|Hneq]; [by destruct Hc|done].
Qed.

(** [split] ends the first word at the first white space. *)
Lemma split_go_word_space (t : str) acc c rest :
  Forall (λ c, Str.is_space c = false) t → Str.is_space c = true →
  Str.split_go (Some acc) (t ++ c :: rest)
  = (reverse acc ++ t) :: Str.split_go None rest.
Proof.
  intros Ht Hc. revert acc.
  induction Ht as [|d t Hd Ht IH]; intros acc; simpl.
  - by rewrite Hc, app_nil_r.
  - rewrite Hd. simpl. rewrite IH, reverse_cons. by rewrite <- app_assoc.
Qed.

Lemma split_word_space (t : str) c rest :
  t ≠ [] → Forall (λ c, Str.is_space c = false) t → Str.is_space c = true →
  head (Str.split (t ++ c :: rest)) = Some t.
Proof.
  intros Hne Ht Hc. destruct t as [|d t]; [done|].
  rewrite Forall_cons in Ht. destruct Ht as [Hd Ht].
  unfold Str.split. simpl. rewrite Hd. simpl.
  by rewrite split_go_word_space.
Qed.

Lemma count_app c (s t : str) :
  Str.count c (s ++ t) = Str.count c s + Str.count c t.
Proof. unfold Str.count. by rewrite filter_app, length_app. Qed.

Lemma md_unwrap_plain (c : ascii) (r : str) :
  c ≠ "<"%char → Str.strip (c :: r) = c :: r → md_unwrap (c :: r) = c :: r.
Proof.
  intros Hc Hs. unfold md_unwrap. rewrite Hs.
  by rewrite startswith_angle_head.
Qed.

Lemma endswith_snoc (s : str) c : Str.endswith (s ++ [c]) [c] = true.
Proof.
  unfold Str.endswith. rewrite reverse_snoc.
  change (reverse [c]) with [c]. cbn [Str.startswith].
  rewrite Ascii.eqb_refl. by destruct (reverse s).
Qed.

Lemma md_target_word (t : str) :
  t ≠ [] → Forall (λ c, Str.is_space c = false) t →
  head t ≠ Some "<"%char → md_target t = t.
Proof.
  intros Hne Ht Hhd. unfold md_target.
  destruct t as [|c r]; [done|].
  rewrite md_unwrap_plain; [|by intros ->|by apply strip_word].
  by rewrite contains_space_word.
Qed.

Lemma count_cons_eq c (s : str) : Str.count c (c :: s) = S (Str.count c s).
Proof. unfold Str.count. by rewrite filter_cons_True. Qed.

(** X16.  How the target of an inline image is normalised (lines 56-61).
    For a non-empty target without white space that does not start with
    an opening angle bracket: the target alone is kept as it is; wrapped
    in angle brackets it is unwrapped; followed by a space and a title,
    it is cut at the space provided the whole holds fewer than two double
    quotes and fewer than two single quotes. *)
Theorem md_target_of_a_word (target : str) :
  target ≠ [] → Forall (λ c, Str.is_space c = false) target →
  head target ≠ Some "<"%char →
  md_target target = target
  ∧ md_target ("<" ++ target ++ ">") = target
  ∧ ∀ title : str,
      Str.count dquote (target ++ " " ++ title) < 2 →
      Str.count "'" (target ++ " " ++ title) < 2 →
      md_target (target ++ " " ++ title) = target.
Proof.
  intros Hne Ht Hhd. split_and!.
  - by apply md_target_word.
  - unfold md_target, md_unwrap.
    assert (Forall (λ c, Str.is_space c = false) ("<" ++ target ++ ">"))
      as Hall.
    { apply Forall_cons. split; [done|]. apply Forall_app. split; [done|].
      by apply Forall_singleton. }
    rewrite strip_word by done.
    change ("<" ++ target ++ ">") with (("<"%char :: target) ++ [">"%char]).
    rewrite endswith_snoc.
    change (Str.startswith (("<"%char :: target) ++ [">"%char]) "<")
      with (Ascii.eqb "<" "<" && Str.startswith (target ++ [">"%char]) []).
    replace (Str.startswith (target ++ [">"%char]) []) with true
      by (by destruct (target ++ [">"%char])).
    cbn [andb Ascii.eqb Bool.eqb]. cbv iota.
    unfold Str.inner. cbn [tail app]. rewrite removelast_last.
    rewrite strip_word by done. by rewrite contains_space_word.
  - intros title Hdq Hsq. unfold md_target, md_unwrap.
    rewrite strip_word_app by done.
    destruct (rstrip_prefix (" " ++ title)) as (ws & Hws).
    destruct target as [|c r]; [done|].
    rewrite <- app_comm_cons, startswith_angle_head by (by intros ->).
    cbn [andb]. rewrite app_comm_cons.
    destruct (Str.rstrip (" " ++ title)) as [|d r'] eqn:Hr.
    + rewrite app_nil_r. by rewrite contains_space_word.
    + injection Hws as <- Htitle.
      assert (Str.contains " " ((c :: r) ++ " "%char :: r') = true) as ->.
      { apply bool_decide_eq_true, elem_of_app. right. left. }
      rewrite Htitle in Hdq, Hsq.
      change (" " ++ r' ++ ws) with ((" "%char :: r') ++ ws) in Hdq, Hsq.
      rewrite app_assoc, count_app in Hdq, Hsq.
      replace (Str.count dquote ((c :: r) ++ " "%char :: r') <? 2) with true
        by (symmetry; apply Nat.ltb_lt; lia).
      replace (Str.count "'" ((c :: r) ++ " "%char :: r') <? 2) with true
        by (symmetry; apply Nat.ltb_lt; lia).
      cbn [andb]. by rewrite split_word_space.
Qed.

Lemma md_target_of_a_word_witness :
  md_target "pic.png" = ("pic.png" : str)
  ∧ md_target ("<" ++ "pic.png" ++ ">") = ("pic.png" : str)
  ∧ md_target ("pic.png" ++ " " ++ "A view") = ("pic.png" : str).
Proof.
  destruct (md_target_of_a_word "pic.png") as (Hplain & Hangle & Htitle);
    [done|apply (bool_decide_unpack _); by_computation|done|].
  split_and!; [exact Hplain|exact Hangle|].
  apply (Htitle "A view"); apply (bool_decide_unpack _); by_computation.
Defined.

(** X17.  A quoted title is not cut off (line 60): where a target without
    white space is followed by a space and a title between two double or
    two single quotes, the whole group, title included, is what goes on
    to [os.path.basename]. *)
Theorem quoted_title_is_not_cut (target title : str) (q : ascii) :
  target ≠ [] → Forall (λ c, Str.is_space c = false) target →
  head target ≠ Some "<"%char → q ∈ quotes →
  md_target (target ++ " " ++ q :: title ++ [q])
  = target ++ " " ++ q :: title ++ [q].
Proof.
  intros Hne Ht Hhd Hq. unfold md_target.
  assert (Str.is_space q = false) as Hqs.
  { unfold quotes in Hq.
    apply elem_of_cons in Hq as [->|Hq]; [done|].
    by apply list_elem_of_singleton in Hq as ->. }
  destruct target as [|c r]; [done|].
  rewrite Forall_cons in Ht. destruct Ht as [Hc Ht].
  rewrite <- app_comm_cons.
  rewrite md_unwrap_plain; [|by intros ->|].
  2:{ unfold Str.strip. rewrite lstrip_id by done.
      change (c :: r ++ " " ++ q :: title ++ [q])
        with ((c :: r) ++ (" "%char :: q :: title) ++ [q]).
      rewrite app_assoc. by apply rstrip_snoc. }
  assert (2 ≤ Str.count q (c :: r ++ " " ++ q :: title ++ [q])) as Hcount.
  { change (c :: r ++ " " ++ q :: title ++ [q])
      with ((c :: r) ++ [" "%char] ++ (q :: title ++ [q])).
    rewrite !count_app, count_cons_eq, count_app, count_cons_eq. lia. }
  unfold quotes in Hq. apply elem_of_cons in Hq as [->|Hq].
  - replace (Str.count dquote _ <? 2) with false
      by (symmetry; apply Nat.ltb_ge; lia).
    by rewrite andb_false_r.
  - apply list_elem_of_singleton in Hq as ->.
    replace (Str.count "'" _ <? 2) with false
      by (symmetry; apply Nat.ltb_ge; lia).
    by rewrite !andb_false_r.
Qed.

Lemma quoted_title_is_not_cut_witness :
  md_target ("pic.png" ++ " " ++ dquote :: "A view" ++ [dquote])
  = ("pic.png" : str) ++ " " ++ dquote :: "A view" ++ [dquote].
Proof.
  apply (quoted_title_is_not_cut "pic.png" "A view" dquote); [done| |done|left].
  apply (bool_decide_unpack _). by_computation.
Defined.

(** X18.  A picture shown by the first inline image of a document is never
    removed by the run of that document, whatever the flags and the
    answer: the entry of the asset folder named like the base name of the
    normalised target is afterwards what it was before. *)
Theorem inline_image_file_is_kept md dry_run yes w pre alt g post :
  text_of (fs w) md = Some (pre ++ "![" ++ alt ++ "](" ++ g ++ ")" ++ post) →
  "!"%char ∉ pre → "]"%char ∉ alt → g ≠ [] → ")"%char ∉ g →
  let p := asset_dir_of md ++ "/" ++ Path.posix_basename (md_target g) in
  fs (process_markdown md dry_run yes w).1 !! p = fs w !! p.
Proof.
  intros Ht Hpre Halt Hne Hg p.
  destruct (process_markdown_summary md dry_run yes w)
    as (w1 & r & evs & Hrun & _ & _ & _ & Hin & Hfs & _).
  rewrite Hrun. cbn [fst].
  destruct (Hfs p) as [?|(_ & _ & Hrm)]; [done|]. exfalso.
  destruct (Hin _ _ Hrm) as (f & Hf & Heq).
  destruct (entry_of_unused_file _ _ _ Hf) as [Hfne Hsep].
  rewrite join_asset_dir in Heq by done. unfold p in Heq.
  do 2 apply app_inv_head in Heq.
  apply elem_of_unused_files_iff in Hf as (text & Ht' & _ & _ & Hnot).
  rewrite Ht in Ht'. injection Ht' as <-.
  apply Hnot, elem_of_extract_image_paths. split; [|done].
  left. exists g. split; [by apply md_image_found|by rewrite <- Heq].
Qed.

Lemma inline_image_file_is_kept_witness :
  fs (process_markdown "a.md" false true (demo [])).1
    !! (asset_dir_of "a.md" ++ "/"
        ++ Path.posix_basename (md_target "a.assets/keep.png"))
  = fs (demo [])
    !! (asset_dir_of "a.md" ++ "/"
        ++ Path.posix_basename (md_target "a.assets/keep.png")).
Proof.
  apply (inline_image_file_is_kept "a.md" false true (demo [])
           "" "x" "a.assets/keep.png" "");
    first [by_computation | apply (bool_decide_unpack _); by_computation].
Defined.

Lemma ref_def_match_at (ws id ws2 target rest : str) :
  Forall (λ c, Str.is_space c = true) ws →
  id ≠ [] → "]"%char ∉ id →
  Forall (λ c, Str.is_space c = true) ws2 →
  target ≠ [] → Forall (λ c, Str.is_space c = false) target →
  (∀ c, head rest = Some c → Str.is_space c = true) →
  ∃ n, Re.match_at ref_def_re None
         (ws ++ "[" ++ id ++ "]:" ++ ws2 ++ target ++ rest)
       = Some (n, target).
Proof.
  intros Hws Hid Hnb Hws2 Hne Ht Hrest.
  destruct id as [|i0 id]; [done|]. destruct target as [|t0 target]; [done|].
  apply not_elem_of_cons in Hnb as [Hi0 Hnb].
  rewrite Forall_cons in Ht. destruct Ht as [Ht0 Ht].
  rewrite Forall_forall in Hws, Hws2, Ht.
  assert (∀ c, c ≠ "]"%char → Re.none_of ["]"%char] c = true) as Hclass.
  { intros c Hc. unfold Re.none_of, Re.any_of. simpl.
    by destruct (Ascii.eqb_spec c "]"). }
  unfold Re.match_at, ref_def_re.
  cbn [Re.match_items Re.at_bol].
  change (ws ++ "[" ++ (i0 :: id) ++ "]:" ++ ws2 ++ (t0 :: target) ++ rest)
    with (ws ++ "["%char :: i0 :: id
          ++ ("]"%char :: ":"%char :: ws2 ++ (t0 :: target ++ rest))).
  erewrite star_run; [|done|done|].
  2:{ cbn [Re.match_items Re.lit Ascii.eqb Bool.eqb andb]. cbv iota.
      rewrite Hclass by done.
      erewrite star_run; [done| |done|].
      { intros c Hc. apply Hclass. by intros ->. }
      cbn [Re.match_items Re.lit Ascii.eqb Bool.eqb andb]. cbv iota.
      erewrite star_run; [done|done|done|].
      cbn [Re.match_items]. rewrite Ht0. cbn [negb].
      erewrite star_run; [done| | |].
      { intros c Hc. by rewrite Ht. }
      { destruct rest as [|c rest]; [done|]. by rewrite Hrest. }
      cbn [Re.match_items]. done. }
  cbn [Re.consumed Re.g_start Re.g_end advance Re.step].
  eexists. f_equal. f_equal.
  apply (span_of_group (ws ++ "[" ++ (i0 :: id) ++ "]:" ++ ws2)
           (t0 :: target) rest).
  - by rewrite <- !app_assoc.
  - repeat (rewrite ?length_app; simpl). lia.
  - simpl. lia.
Qed.

(** X19.  A reference-style definition at the start of the text is picked
    up: after optional white space, an identifier in square brackets
    without a closing bracket, a colon and optional white space, the
    target up to the next white space or the end of the text has its base
    name in the set of references, unless that is empty. *)
Theorem leading_reference_definition_is_extracted
    fl (ws id ws2 target rest : str) :
  Forall (λ c, Str.is_space c = true) ws →
  id ≠ [] → "]"%char ∉ id →
  Forall (λ c, Str.is_space c = true) ws2 →
  target ≠ [] → Forall (λ c, Str.is_space c = false) target →
  (∀ c, head rest = Some c → Str.is_space c = true) →
  Path.basename fl target ≠ [] →
  Path.basename fl target
  ∈ extract_image_paths fl (ws ++ "[" ++ id ++ "]:" ++ ws2 ++ target ++ rest).
Proof.
  intros Hws Hid Hnb Hws2 Hne Ht Hrest Hbase.
  destruct (ref_def_match_at ws id ws2 target rest) as [n Hn]; try done.
  apply elem_of_extract_image_paths. split; [|done].
  right. right. left. exists target. split.
  - by eapply finditer_go_hit.
  - by rewrite strip_word.
Qed.

Lemma leading_reference_definition_is_extracted_witness :
  ("logo.png" : str)
  ∈ extract_image_paths Path.Posix
      (" " ++ "[" ++ "logo" ++ "]:" ++ " " ++ "doc.assets/logo.png"
       ++ " and more").
Proof.
  apply (leading_reference_definition_is_extracted Path.Posix
           " " "logo" " " "doc.assets/logo.png" " and more");
    first [ by_computation
          | apply (bool_decide_unpack _); by_computation
          | by intros c [= <-] ].
Defined.
